(** * A paginated category table and its edit dialog

    Shallow embedding of the two single-file components of the repository:
    [EditDialog.vue] (the modal form that owns a draft of one record) and the
    listing component that embeds it (collection, pagination, add / edit /
    delete).  Handlers become functions on an explicit component state; what
    a handler shows or emits is returned next to the new state. *)

From Stdlib Require Import ZArith QArith Qround Qabs Lia Bool Ascii String.
From stdpp Require Import base option list gmap.

Open Scope Z_scope.

(** ** JavaScript primitives used by the handlers *)

Module Js.

(** A string is its sequence of UTF-16 code units. *)
Definition jsstring := list N.

(** [Array.prototype.findIndex]: index of the first element satisfying [p],
    [-1] when there is none. *)
Fixpoint findIndex_from {A} (p : A -> bool) (l : list A) (i : Z) : Z :=
  match l with
  | [] => -1
  | x :: r => if p x then i else findIndex_from p r (i + 1)
  end.

Definition findIndex {A} (p : A -> bool) (l : list A) : Z := findIndex_from p l 0.

(** [Array.prototype.slice(start, end)]: negative bounds count from the end,
    both bounds are clamped to the array. *)
Definition rel_index (len k : Z) : Z :=
  if k <? 0 then Z.max (len + k) 0 else Z.min k len.

Definition slice {A} (l : list A) (start stop : Z) : list A :=
  let len := Z.of_nat (length l) in
  let k := rel_index len start in
  let fin := rel_index len stop in
  take (Z.to_nat (fin - k)) (drop (Z.to_nat k) l).

(** [arr.splice(index, 1)] for an index returned by [findIndex]. *)
Definition splice1 {A} (index : Z) (l : list A) : list A :=
  delete (Z.to_nat index) l.

(** [Math.max(...xs, 0)]. *)
Definition max0 (xs : list Z) : Z := foldr Z.max 0 xs.

(** [Number.MAX_SAFE_INTEGER] *)
Definition MAX_SAFE_INTEGER : Z := 2 ^ 53 - 1.

(** A number is a double.  Every integer up to [2 ^ 53] in magnitude is
    one; a larger integer is rounded to the nearest double, which keeps 53
    significant bits, a tie going to the even significand (values beyond
    the largest double are outside this model). *)
Definition to_double (z : Z) : Z :=
  if Z.abs z <=? 2 ^ 53 then z
  else
    let unit := 2 ^ (Z.log2 (Z.abs z) - 52) in
    let q := Z.abs z / unit in
    let r := Z.abs z mod unit in
    let q' := if 2 * r <? unit then q
              else if unit <? 2 * r then q + 1
              else if Z.even q then q else q + 1 in
    Z.sgn z * (q' * unit).

(** [a + b] on numbers that hold integers. *)
Definition add (a b : Z) : Z := to_double (a + b).

(** An ASCII literal as code units. *)
Definition of_ascii (s : String.string) : jsstring :=
  map N_of_ascii (list_ascii_of_string s).

(** [Math.ceil(a / b)] on integers, for [b <> 0] (the page size is never 0:
    it starts at 2 and the selector offers 10, 20, 50 and 100). *)
Definition ceil_div (a b : Z) : Z := - ((- a) / b).

End Js.

(** ** Numbers that need not be whole

    A number is a double.  A finite double is a rational number; it is kept
    here as that rational, in lowest terms, and the result of an arithmetic
    operation is the exact result rounded to the nearest double (ties to the
    even significand), as IEEE 754 has it.  Magnitudes outside the range of
    the normal doubles do not occur in what follows and are not modelled. *)

Module Number.

Definition of_Z (z : Z) : Q := inject_Z z.

Definition pow2 (e : Z) : Q :=
  if 0 <=? e then inject_Z (2 ^ e) else 1 # Z.to_pos (2 ^ (- e)).

(** The exponent [e] of a positive rational [a]: [2 ^ e <= a < 2 ^ (e + 1)]. *)
Definition exponent (a : Q) : Z :=
  let e := Z.log2 (Qnum a) - Z.log2 (Zpos (Qden a)) in
  if Qle_bool (pow2 e) a then e else e - 1.

(** The double nearest to [q].  A whole number is rounded as [Js.to_double]
    has it; otherwise the significand, [q] in units of [2 ^ (e - 52)], is
    rounded to the nearest integer, a tie going to the even one. *)
Definition round (q : Q) : Q :=
  let q := Qred q in
  match Qden q with
  | 1%positive => inject_Z (Js.to_double (Qnum q))
  | _ =>
      let a := Qabs q in
      let unit := pow2 (exponent a - 52) in
      let x := Qdiv a unit in
      let n := Qfloor x in
      let n' := match Qcompare (Qminus x (inject_Z n)) (1 # 2) with
                | Lt => n
                | Gt => n + 1
                | Eq => if Z.even n then n else n + 1
                end in
      Qred (Qmult (inject_Z (Z.sgn (Qnum q) * n')) unit)
  end.

(** [a + b], [a - b], [a * b] *)
Definition add (a b : Q) : Q := round (Qplus a b).
Definition sub (a b : Q) : Q := round (Qminus a b).
Definition mul (a b : Q) : Q := round (Qmult a b).

(** [a <= b], [a < b] *)
Definition leb (a b : Q) : bool := Qle_bool a b.
Definition ltb (a b : Q) : bool := negb (Qle_bool b a).

(** [ToIntegerOrInfinity], which [slice] applies to its bounds: the
    fraction is dropped. *)
Definition to_integer (q : Q) : Z := Z.quot (Qnum q) (Zpos (Qden q)).

End Number.

Arguments Number.round : simpl never.
Arguments Number.add : simpl never.
Arguments Number.sub : simpl never.
Arguments Number.mul : simpl never.
Arguments Number.leb : simpl never.
Arguments Number.ltb : simpl never.
Arguments Number.to_integer : simpl never.
Arguments Number.of_Z : simpl never.

(** ** The dialog component ([EditDialog.vue]) *)

Module EditDialog.

(** ['启用' | '禁用'] *)
Inductive Status := Enabled | Disabled.

(** ['add' | 'edit'] *)
Inductive DialogMode := add | edit.

(** [EditFormData], as the object is at run time: [id] is optional by
    declaration, and the dialog itself provides for the other properties
    being absent (the [||] defaults of [initForm], the [required] rules). *)
Record EditFormData := mkEditFormData {
  id : option Z;
  categoryNameZh : option Js.jsstring;
  categoryNameEn : option Js.jsstring;
  sortOrder : option Z;
  status : option Status
}.

#[global] Instance Status_eq_dec : EqDecision Status.
Proof. solve_decision. Defined.

#[global] Instance DialogMode_eq_dec : EqDecision DialogMode.
Proof. solve_decision. Defined.

#[global] Instance EditFormData_eq_dec : EqDecision EditFormData.
Proof. solve_decision. Defined.

(** *** Objects and references

    The draft, the [formData] prop and the payload of [confirm] are objects
    with an identity; [store] holds every object of the page, the caller's
    and the dialog's alike. *)
Definition loc := positive.

Record Props := mkProps {
  visible : bool;
  formData : option loc;
  mode : DialogMode
}.

(** [defineEmits]: ['update:visible'], ['confirm'], ['cancel']. *)
Inductive Emit :=
  | update_visible (value : bool)
  | confirm (data : loc)
  | cancel.

(** [form] is the object [form.value] refers to; [formRef] is the mounted
    [el-form] (absent until the dialog body is first rendered), which keeps
    the field values that [resetFields] restores. *)
Record Dialog := mkDialog {
  store : gmap loc EditFormData;
  form : loc;
  formRef : option EditFormData
}.

(** [{ categoryNameZh: '', categoryNameEn: '', sortOrder: 1, status: '启用' }] *)
Definition defaultForm : EditFormData :=
  {| id := None; categoryNameZh := Some []; categoryNameEn := Some [];
     sortOrder := Some 1; status := Some Enabled |}.

(** [x || d]: [d] replaces an absent or falsy [x]. *)
Class Truthy (A : Type) := truthy : A -> bool.

#[global] Instance jsstring_truthy : Truthy Js.jsstring :=
  fun s => match s with [] => false | _ :: _ => true end.

#[global] Instance number_truthy : Truthy Z := fun n => negb (n =? 0).

#[global] Instance Status_truthy : Truthy Status := fun _ => true.

Definition or_else {A} `{Truthy A} (x : option A) (d : A) : A :=
  match x with
  | Some v => if truthy v then v else d
  | None => d
  end.

(** [form.value = obj]: a new object, and [form] refers to it. *)
Definition assign_form (obj : EditFormData) (d : Dialog) : Dialog :=
  let l := fresh (dom (d.(store))) in
  {| store := <[l := obj]> d.(store); form := l; formRef := d.(formRef) |}.

(** The component's setup in a page whose objects are [h]:
    [const form = ref({ ... })], [const formRef = ref()]. *)
Definition setup (h : gmap loc EditFormData) : Dialog :=
  assign_form defaultForm {| store := h; form := 1%positive; formRef := None |}.

Definition isEditMode (props : Props) : bool := bool_decide (props.(mode) = edit).

(** The object a reference reads; a reference always points to an object
    of the store. *)
Definition deref (d : Dialog) (l : loc) : option EditFormData := d.(store) !! l.

Definition initForm (props : Props) (d : Dialog) : Dialog :=
  match (if isEditMode props then props.(formData) ≫= deref d else None) with
  | Some fd =>
      assign_form
        {| id := fd.(id);
           categoryNameZh := Some (or_else fd.(categoryNameZh) []);
           categoryNameEn := Some (or_else fd.(categoryNameEn) []);
           sortOrder := Some (or_else fd.(sortOrder) 1);
           status := Some (or_else fd.(status) Enabled) |} d
  | None => assign_form defaultForm d
  end.

(** [formRef.value?.resetFields()]: every field with a form item goes back
    to the value the item had when it was mounted. *)
Definition resetFields (init : EditFormData) (o : EditFormData) : EditFormData :=
  {| id := o.(id);
     categoryNameZh := init.(categoryNameZh);
     categoryNameEn := init.(categoryNameEn);
     sortOrder := init.(sortOrder);
     status := init.(status) |}.

Definition resetForm (d : Dialog) : Dialog :=
  match d.(formRef) with
  | Some init =>
      {| store := alter (resetFields init) d.(form) d.(store);
         form := d.(form); formRef := d.(formRef) |}
  | None => d
  end.

Definition handleClose (d : Dialog) : Dialog * list Emit :=
  (resetForm d, [update_visible false]).

(** [clearValidate] only clears the messages on screen. *)
Definition handleOpened (d : Dialog) : Dialog := d.

(** The [watch] on [props.visible]; it runs when the prop has changed. *)
Definition watch_visible (props : Props) (newVal : bool) (d : Dialog) : Dialog :=
  if newVal then initForm props d else d.

Definition set_visible (oldVal : bool) (props : Props) (d : Dialog) : Dialog :=
  if bool_decide (oldVal = props.(visible)) then d
  else watch_visible props props.(visible) d.

(** [el-input-number :min="1" :max="9999"]: the number input keeps the sort
    order it is bound to within its range, writing a value outside it back
    as the nearest bound. *)
Definition sortOrder_min : Z := 1.
Definition sortOrder_max : Z := 9999.

Definition clamp (n : Z) : Z :=
  if sortOrder_max <? n then sortOrder_max
  else if n <? sortOrder_min then sortOrder_min
  else n.

Definition number_input (o : EditFormData) : EditFormData :=
  {| id := o.(id); categoryNameZh := o.(categoryNameZh);
     categoryNameEn := o.(categoryNameEn); sortOrder := clamp <$> o.(sortOrder);
     status := o.(status) |}.

(** Rendering the dialog body: the number input brings the draft's sort
    order into its range, and the first rendering mounts the [el-form],
    whose items record the field values they then have. *)
Definition mount_form (d : Dialog) : Dialog :=
  match deref d d.(form) with
  | Some o =>
      let o' := number_input o in
      {| store := <[d.(form) := o']> d.(store); form := d.(form);
         formRef := Some (default o' d.(formRef)) |}
  | None => d
  end.

(** The [v-model] bindings of the four inputs; the number input passes on a
    number within its range, and clearing it leaves [sortOrder] without a
    value. *)
Inductive Input :=
  | input_categoryNameZh (v : Js.jsstring)
  | input_categoryNameEn (v : Js.jsstring)
  | input_sortOrder (v : option Z)
  | input_status (v : Status).

Definition write_field (i : Input) (o : EditFormData) : EditFormData :=
  match i with
  | input_categoryNameZh v =>
      {| id := o.(id); categoryNameZh := Some v; categoryNameEn := o.(categoryNameEn);
         sortOrder := o.(sortOrder); status := o.(status) |}
  | input_categoryNameEn v =>
      {| id := o.(id); categoryNameZh := o.(categoryNameZh); categoryNameEn := Some v;
         sortOrder := o.(sortOrder); status := o.(status) |}
  | input_sortOrder v =>
      {| id := o.(id); categoryNameZh := o.(categoryNameZh);
         categoryNameEn := o.(categoryNameEn); sortOrder := clamp <$> v;
         status := o.(status) |}
  | input_status v =>
      {| id := o.(id); categoryNameZh := o.(categoryNameZh);
         categoryNameEn := o.(categoryNameEn); sortOrder := o.(sortOrder);
         status := Some v |}
  end.

Definition handleInput (i : Input) (d : Dialog) : Dialog :=
  {| store := alter (write_field i) d.(form) d.(store);
     form := d.(form); formRef := d.(formRef) |}.

(** *** Validation rules *)

Definition maxLength : Z := 50.

Inductive RuleType := number.

(** A rule object, without its [message] and [trigger]. *)
Record Rule := mkRule {
  required : bool;
  type : option RuleType;
  min : option Z;
  max : option Z
}.

Inductive Field := f_categoryNameZh | f_categoryNameEn | f_sortOrder | f_status.

Definition rules (f : Field) : list Rule :=
  match f with
  | f_categoryNameZh | f_categoryNameEn =>
      [ {| required := true; type := None; min := None; max := None |};
        {| required := false; type := None; min := None; max := Some maxLength |} ]
  | f_sortOrder =>
      [ {| required := true; type := None; min := None; max := None |};
        {| required := false; type := Some number; min := Some 1; max := None |} ]
  | f_status =>
      [ {| required := true; type := None; min := None; max := None |} ]
  end.

(** What the form's validator sees of a field. *)
Inductive Value :=
  | VUndefined
  | VString (s : Js.jsstring)
  | VNumber (n : Z).

Definition status_label (st : Status) : Js.jsstring :=
  match st with
  | Enabled => [0x542F; 0x7528]%N
  | Disabled => [0x7981; 0x7528]%N
  end.

Definition field_value (f : Field) (o : EditFormData) : Value :=
  match f with
  | f_categoryNameZh => from_option VString VUndefined o.(categoryNameZh)
  | f_categoryNameEn => from_option VString VUndefined o.(categoryNameEn)
  | f_sortOrder => from_option VNumber VUndefined o.(sortOrder)
  | f_status => from_option (fun st => VString (status_label st)) VUndefined o.(status)
  end.

(** The validator measures a string with each surrogate pair counted once. *)
Definition is_high_surrogate (c : N) : bool := ((0xD800 <=? c) && (c <=? 0xDBFF))%N.
Definition is_low_surrogate (c : N) : bool := ((0xDC00 <=? c) && (c <=? 0xDFFF))%N.

Fixpoint char_count (s : Js.jsstring) : Z :=
  match s with
  | [] => 0
  | c :: r =>
      match r with
      | c' :: r' =>
          if is_high_surrogate c && is_low_surrogate c'
          then 1 + char_count r' else 1 + char_count r
      | [] => 1
      end
  end.

Definition is_empty (v : Value) : bool :=
  match v with
  | VUndefined | VString [] => true
  | _ => false
  end.

Definition in_range (r : Rule) (n : Z) : bool :=
  from_option (fun m => m <=? n) true r.(min)
  && from_option (fun m => n <=? m) true r.(max).

(** A rule that says nothing but [required] is checked for presence only;
    any other rule lets an empty value pass unless it is required, and
    checks the type (a string unless stated) and the range of the rest. *)
Definition only_required (r : Rule) : bool :=
  match r.(type), r.(min), r.(max) with
  | None, None, None => true
  | _, _, _ => false
  end.

Definition check_rule (r : Rule) (v : Value) : bool :=
  if is_empty v then negb r.(required)
  else if only_required r then true
  else match r.(type), v with
       | Some number, VNumber n => in_range r n
       | None, VString s => in_range r (char_count s)
       | _, _ => false
       end.

Definition check_field (f : Field) (o : EditFormData) : bool :=
  forallb (fun r => check_rule r (field_value f o)) (rules f).

(** [formRef.value.validate()] resolves iff every field passes its rules. *)
Definition validate (o : EditFormData) : bool :=
  forallb (fun f => check_field f o)
    [f_categoryNameZh; f_categoryNameEn; f_sortOrder; f_status].

(** [emit('confirm', { ...form.value })]: the payload is a new object. *)
Definition handleConfirm (d : Dialog) : Dialog * list Emit :=
  match d.(formRef), deref d d.(form) with
  | Some _, Some draft =>
      if validate draft then
        let l := fresh (dom (d.(store))) in
        let d1 := {| store := <[l := draft]> d.(store); form := d.(form);
                     formRef := d.(formRef) |} in
        let '(d2, closing) := handleClose d1 in
        (d2, confirm l :: closing)
      else (d, [])
  | _, _ => (d, [])
  end.

Definition handleCancel (d : Dialog) : Dialog * list Emit :=
  let '(d1, closing) := handleClose d in
  (d1, cancel :: closing).

(** Everything that can happen to the dialog. *)
Inductive Op :=
  | op_set_visible (oldVal : bool) (props : Props)
  | op_mount
  | op_opened
  | op_input (i : Input)
  | op_confirm
  | op_cancel
  | op_close.

Definition run (op : Op) (d : Dialog) : Dialog * list Emit :=
  match op with
  | op_set_visible oldVal props => (set_visible oldVal props d, [])
  | op_mount => (mount_form d, [])
  | op_opened => (handleOpened d, [])
  | op_input i => (handleInput i d, [])
  | op_confirm => handleConfirm d
  | op_cancel => handleCancel d
  | op_close => handleClose d
  end.

(** *** The dialog inside a page

    The caller (the component that embeds the dialog) owns objects too: it
    may overwrite any object it has a reference to and create new ones.
    [known] below is the set of references the caller has: those of the
    objects it created and the payloads it was sent. *)
Definition caller_write (l : loc) (o : EditFormData) (d : Dialog) : Dialog :=
  {| store := <[l := o]> d.(store); form := d.(form); formRef := d.(formRef) |}.

Definition caller_new (o : EditFormData) (d : Dialog) : loc * Dialog :=
  let l := fresh (dom (d.(store))) in (l, caller_write l o d).

Definition payloads (evs : list Emit) : gset loc :=
  list_to_set (omap (fun e => match e with confirm l => Some l | _ => None end) evs).

(** The [formData] prop is a reference the caller has. *)
Definition props_from (known : gset loc) (op : Op) : Prop :=
  match op with
  | op_set_visible _ props => forall l, props.(formData) = Some l -> l ∈ known
  | _ => True
  end.

Inductive reachable : gset loc -> Dialog -> Prop :=
  | reachable_setup h : reachable (dom h) (setup h)
  | reachable_run known d op :
      reachable known d -> props_from known op ->
      reachable (known ∪ payloads (run op d).2) (run op d).1
  | reachable_write known d l o :
      reachable known d -> l ∈ known -> reachable known (caller_write l o d)
  | reachable_new known d o :
      reachable known d ->
      reachable (known ∪ {[ (caller_new o d).1 ]}) (caller_new o d).2.

(** The draft object is the dialog's own: it exists, and the caller has no
    reference to it. *)
Definition private (known : gset loc) (d : Dialog) : Prop :=
  d.(form) ∈ dom (d.(store)) /\ (d.(form) ∉ known) /\ known ⊆ dom (d.(store)).

(** The draft the user sees. *)
Definition draft (d : Dialog) : option EditFormData := deref d d.(form).

(** What a rendering displays: whether the dialog is open ([:model-value]
    of [el-dialog]) and the values its inputs are bound to. *)
Record View := mkView {
  shown : bool;
  inputs : option EditFormData
}.

(** Rendering with the props [props]; the body of a dialog that is not
    open is not rendered. *)
Definition render (props : Props) (d : Dialog) : Dialog * View :=
  let d1 := if props.(visible) then mount_form d else d in
  (d1, {| shown := props.(visible); inputs := draft d1 |}).

(** The parent passes new props.  The watcher on [visible] has the default
    flush timing: its callback runs after the props are updated and before
    the component is rendered with them. *)
Definition update_props (old new : Props) (d : Dialog) : Dialog * View :=
  render new (set_visible old.(visible) new d).

(** The record of the specification's example,
    [{id:5, nameZh:"A", nameEn:"B", sortOrder:3, status:enabled}], and the
    same record with a sort order of 10000. *)
Definition record_5 : EditFormData :=
  {| id := Some 5; categoryNameZh := Some (Js.of_ascii "A");
     categoryNameEn := Some (Js.of_ascii "B"); sortOrder := Some 3;
     status := Some Enabled |}.

Definition record_5_oversized : EditFormData :=
  {| id := Some 5; categoryNameZh := Some (Js.of_ascii "A");
     categoryNameEn := Some (Js.of_ascii "B"); sortOrder := Some 10000;
     status := Some Enabled |}.

(** A page whose only object is [o], with the dialog set up in it. *)
Definition page_with (o : EditFormData) : Dialog := setup {[ 1%positive := o ]}.

Definition open_edit_1 : Props :=
  {| visible := true; formData := Some 1%positive; mode := edit |}.

Definition open_add : Props :=
  {| visible := true; formData := None; mode := add |}.

(** The props of a dialog that is not open. *)
Definition closed : Props :=
  {| visible := false; formData := None; mode := add |}.

(** What the rules ask of a draft, in words: both names present, not empty
    and of at most 50 characters, a sort order present and above 0, a
    status present. *)
Definition acceptable (o : EditFormData) : Prop :=
  (exists zh, o.(categoryNameZh) = Some zh /\ zh <> [] /\ char_count zh <= 50) /\
  (exists en, o.(categoryNameEn) = Some en /\ en <> [] /\ char_count en <= 50) /\
  (exists n, o.(sortOrder) = Some n /\ 0 < n) /\
  is_Some o.(status).

(** [zhCharCount] and [enCharCount]: the [length] of the draft's names, in
    code units; reading the [length] of an absent name throws, which is
    [None] here. *)
Definition zhCharCount (d : Dialog) : option Z :=
  o ← draft d; s ← o.(categoryNameZh); Some (Z.of_nat (length s)).

Definition enCharCount (d : Dialog) : option Z :=
  o ← draft d; s ← o.(categoryNameEn); Some (Z.of_nat (length s)).

(** A draft whose names and status have a value; [sortOrder] is the one
    field an input can leave without one. *)
Definition names_and_status_present (o : EditFormData) : Prop :=
  is_Some o.(categoryNameZh) /\ is_Some o.(categoryNameEn) /\ is_Some o.(status).

(** The operations that close the dialog without submitting. *)
Definition closes (op : Op) : Prop :=
  match op with
  | op_cancel | op_close => True
  | _ => False
  end.

(** A sequence of inputs, typed one after the other. *)
Definition type_all (inputs : list Input) (d : Dialog) : Dialog :=
  foldl (fun d i => handleInput i d) d inputs.

(** How the length a counter shows relates to the rules of its field. *)
Definition counter_agrees (f : Field) (o : EditFormData) (s : Js.jsstring) : Prop :=
  char_count s <= Z.of_nat (length s) /\
  (s <> [] -> Z.of_nat (length s) <= maxLength -> check_field f o = true) /\
  (Forall (fun c => is_high_surrogate c = false) s ->
     (check_field f o = true <-> s <> [] /\ Z.of_nat (length s) <= maxLength)).

(** The draft and the values the mounted form keeps are both complete. *)
Definition well_kept (d : Dialog) : Prop :=
  (exists o, draft d = Some o /\ names_and_status_present o) /\
  (forall init, d.(formRef) = Some init -> names_and_status_present init).

End EditDialog.

(** ** The listing component

    Page numbers are whole numbers in this module: what the pager announces
    and what is typed into the jump input without a fraction.  The jump
    input takes any number; [Fractional] below is the component with the
    page numbers it can hold, and agrees with this module on whole ones. *)

Module DataTable.

Import EditDialog(Status, Enabled, Disabled, DialogMode, add, edit, EditFormData).

(** A row of the table: an [EditFormData] whose [id] is a number. *)
Record TableItem := mkTableItem {
  id : Z;
  categoryNameZh : option Js.jsstring;
  categoryNameEn : option Js.jsstring;
  sortOrder : option Z;
  status : option Status
}.

(** [{ ...data, id: k }] *)
Definition spread_with_id (data : EditFormData) (k : Z) : TableItem :=
  {| id := k;
     categoryNameZh := data.(EditDialog.categoryNameZh);
     categoryNameEn := data.(EditDialog.categoryNameEn);
     sortOrder := data.(EditDialog.sortOrder);
     status := data.(EditDialog.status) |}.

(** [{ ...row }] *)
Definition spread_row (row : TableItem) : EditFormData :=
  {| EditDialog.id := Some row.(id);
     EditDialog.categoryNameZh := row.(categoryNameZh);
     EditDialog.categoryNameEn := row.(categoryNameEn);
     EditDialog.sortOrder := row.(sortOrder);
     EditDialog.status := row.(status) |}.

Record Pagination := mkPagination {
  currentPage : Z;
  pageSize : Z;
  jumpPage : Z
}.

(** [pageSizeOptions: ['10', '20', '50', '100']], offered by the selector as
    [Number(option)]. *)
Definition pageSizeOptions : list Z := [10; 20; 50; 100].

Record State := mkState {
  tableData : list TableItem;
  dialogVisible : bool;
  currentEditData : option EditFormData;
  pagination : Pagination;
  dialogMode : DialogMode
}.

Definition set_tableData (l : list TableItem) (s : State) : State :=
  {| tableData := l; dialogVisible := s.(dialogVisible);
     currentEditData := s.(currentEditData); pagination := s.(pagination);
     dialogMode := s.(dialogMode) |}.

Definition set_pagination (p : Pagination) (s : State) : State :=
  {| tableData := s.(tableData); dialogVisible := s.(dialogVisible);
     currentEditData := s.(currentEditData); pagination := p;
     dialogMode := s.(dialogMode) |}.

(** The toasts of [ElMessage], by the literal text shown. *)
Inductive MessageText :=
  | DeleteDone        (* '删除成功' *)
  | EditDone          (* '修改成功' *)
  | EditTargetMissing (* '未找到要修改的数据' *)
  | AddDone.          (* '新增成功' *)

Inductive ElMessage :=
  | success (t : MessageText)
  | error (t : MessageText).

(** [computed(() => tableData.value.length)] *)
Definition total (s : State) : Z := Z.of_nat (length s.(tableData)).

(** [Math.ceil(total.value / pagination.pageSize)] *)
Definition totalPages (s : State) : Z :=
  Js.ceil_div (total s) s.(pagination).(pageSize).

Definition paginatedData (s : State) : list TableItem :=
  let start := (s.(pagination).(currentPage) - 1) * s.(pagination).(pageSize) in
  let stop := start + s.(pagination).(pageSize) in
  Js.slice s.(tableData) start stop.

Definition handleAdd (s : State) : State :=
  {| tableData := s.(tableData); dialogVisible := true;
     currentEditData := None; pagination := s.(pagination);
     dialogMode := add |}.

Definition handleEdit (row : TableItem) (s : State) : State :=
  {| tableData := s.(tableData); dialogVisible := true;
     currentEditData := Some (spread_row row); pagination := s.(pagination);
     dialogMode := edit |}.

(** [handleDelete]; [confirmed] is the answer to the [ElMessageBox.confirm]
    prompt (a decline rejects the promise and lands in the empty [catch]). *)
Definition handleDelete (confirmed : bool) (row : TableItem) (s : State)
  : State * list ElMessage :=
  if confirmed then
    let index := Js.findIndex (fun item => item.(id) =? row.(id)) s.(tableData) in
    if -1 <? index then
      let s1 := set_tableData (Js.splice1 index s.(tableData)) s in
      let p := s1.(pagination) in
      if (Z.of_nat (length (paginatedData s1)) =? 0) && (1 <? p.(currentPage)) then
        let cp := p.(currentPage) - 1 in
        (set_pagination
           {| currentPage := cp; pageSize := p.(pageSize); jumpPage := cp |} s1,
         [success DeleteDone])
      else (s1, [success DeleteDone])
    else (s, [])
  else (s, []).

(** [modeHandlers.edit]; when [data.id] is undefined no row's id is [===]
    to it and [findIndex] returns [-1]. *)
Definition modeHandlers_edit (data : EditFormData) (s : State)
  : State * list ElMessage :=
  match data.(EditDialog.id) with
  | Some k =>
      let index := Js.findIndex (fun item => item.(id) =? k) s.(tableData) in
      if -1 <? index then
        (set_tableData
           (<[Z.to_nat index := spread_with_id data k]> s.(tableData)) s,
         [success EditDone])
      else (s, [error EditTargetMissing])
  | None => (s, [error EditTargetMissing])
  end.

(** [modeHandlers.add] *)
Definition modeHandlers_add (data : EditFormData) (s : State)
  : State * list ElMessage :=
  let newId := Js.add (Js.max0 ((fun item => item.(id)) <$> s.(tableData))) 1 in
  let s1 := set_tableData (s.(tableData) ++ [spread_with_id data newId]) s in
  let pages := totalPages s1 in
  (set_pagination
     {| currentPage := pages; pageSize := s1.(pagination).(pageSize);
        jumpPage := pages |} s1,
   [success AddDone]).

(** [modeHandlers[dialogMode.value](data)] *)
Definition handleDialogConfirm (data : EditFormData) (s : State)
  : State * list ElMessage :=
  match s.(dialogMode) with
  | edit => modeHandlers_edit data s
  | add => modeHandlers_add data s
  end.

Definition handleSizeChange (val : Z) (s : State) : State :=
  set_pagination
    {| currentPage := 1; pageSize := val;
       jumpPage := s.(pagination).(jumpPage) |} s.

Definition handleCurrentChange (val : Z) (s : State) : State :=
  set_pagination
    {| currentPage := val; pageSize := s.(pagination).(pageSize);
       jumpPage := val |} s.

(** [v-model.number="pagination.jumpPage"]: typing a whole number into the
    jump input. *)
Definition inputJumpPage (val : Z) (s : State) : State :=
  set_pagination
    {| currentPage := s.(pagination).(currentPage);
       pageSize := s.(pagination).(pageSize); jumpPage := val |} s.

Definition handleJump (s : State) : State :=
  let p := s.(pagination) in
  if (1 <=? p.(jumpPage)) && (p.(jumpPage) <=? totalPages s) then
    set_pagination
      {| currentPage := p.(jumpPage); pageSize := p.(pageSize);
         jumpPage := p.(jumpPage) |} s
  else s.

(** [v-model:visible="dialogVisible"]: the dialog's ['update:visible']. *)
Definition updateVisible (value : bool) (s : State) : State :=
  {| tableData := s.(tableData); dialogVisible := value;
     currentEditData := s.(currentEditData); pagination := s.(pagination);
     dialogMode := s.(dialogMode) |}.

(** The mock data the component starts with. *)
Definition aircraft : Js.jsstring := [0x98DE; 0x884C; 0x5668]%N.
Definition combat_flight_control : Js.jsstring :=
  Js.of_ascii "combat flight control".

Definition mock (k order : Z) (st : Status) : TableItem :=
  {| id := k; categoryNameZh := Some aircraft;
     categoryNameEn := Some combat_flight_control;
     sortOrder := Some order; status := Some st |}.

Definition initial : State :=
  {| tableData :=
       [ mock 2356 1 Enabled; mock 2645 2 Enabled; mock 2632 3 Disabled;
         mock 2630 6 Enabled; mock 2662 5 Enabled; mock 2699 4 Enabled;
         mock 2369 9 Enabled; mock 2586 11 Enabled ];
     dialogVisible := false;
     currentEditData := None;
     pagination := {| currentPage := 1; pageSize := 2; jumpPage := 1 |};
     dialogMode := add |}.

(** The events of the template, each with the handler bound to it. *)
Inductive Action :=
  | click_add
  | click_edit (row : TableItem)
  | click_delete (row : TableItem) (confirmed : bool)
  | dialog_confirm (data : EditFormData)
  | dialog_update_visible (value : bool)
  | size_change (val : Z)
  | current_change (val : Z)
  | input_jump (val : Z)
  | jump_enter.

Definition step (a : Action) (s : State) : State * list ElMessage :=
  match a with
  | click_add => (handleAdd s, [])
  | click_edit row => (handleEdit row s, [])
  | click_delete row confirmed => handleDelete confirmed row s
  | dialog_confirm data => handleDialogConfirm data s
  | dialog_update_visible value => (updateVisible value s, [])
  | size_change val => (handleSizeChange val s, [])
  | current_change val => (handleCurrentChange val s, [])
  | input_jump val => (inputJumpPage val s, [])
  | jump_enter => (handleJump s, [])
  end.

(** The pagination invariant: with a non-empty collection the current page
    is at most the number of pages. *)
Definition page_in_range (s : State) : Prop :=
  0 < total s -> s.(pagination).(currentPage) <= totalPages s.

(** What the widgets can send: the selector offers the listed page sizes;
    the pager is taken to announce a page no greater than the page count. *)
Definition offered (a : Action) (s : State) : Prop :=
  match a with
  | size_change val => val ∈ pageSizeOptions
  | current_change val => 0 < total s -> val <= totalPages s
  | _ => True
  end.

(** The three-row collection of the specification's example. *)
Definition three_rows : State :=
  {| tableData := [mock 1 1 Enabled; mock 2 2 Enabled; mock 3 3 Enabled];
     dialogVisible := false; currentEditData := None;
     pagination := {| currentPage := 2; pageSize := 2; jumpPage := 2 |};
     dialogMode := add |}.

(** The collection [[{id:2},{id:5}]] of the specification's example. *)
Definition two_rows : State :=
  {| tableData := [mock 2 1 Enabled; mock 5 2 Enabled];
     dialogVisible := true; currentEditData := None;
     pagination := {| currentPage := 1; pageSize := 2; jumpPage := 1 |};
     dialogMode := add |}.

(** No two rows carry the same id. *)
Definition unique_ids (s : State) : Prop :=
  NoDup ((fun item => item.(id)) <$> s.(tableData)).

(** The current page is a page of the collection: the page size is
    positive, the page number is at least 1 and within the page count. *)
Definition on_a_page (s : State) : Prop :=
  0 < s.(pagination).(pageSize) /\ 1 <= s.(pagination).(currentPage) /\
  page_in_range s.

(** The pager announcing a page from 1 on. *)
Definition from_page_one (a : Action) : Prop :=
  match a with
  | current_change val => 1 <= val
  | _ => True
  end.

(** Every id is at most [Number.MAX_SAFE_INTEGER]: adding 1 to any of them
    is exact. *)
Definition safe_ids (s : State) : Prop :=
  forall x, x ∈ s.(tableData) -> x.(id) <= Js.MAX_SAFE_INTEGER.

(** The states reached from the mock data by [n] operations. *)
Inductive reached : nat -> State -> Prop :=
  | reached_0 : reached 0 initial
  | reached_S n a s : reached n s -> reached (S n) (step a s).1.

End DataTable.

(** ** The listing component, with the numbers the jump input holds

    The jump input ([el-input] with [type="number"] and [v-model.number])
    stores [parseFloat] of its text in [pagination.jumpPage], so that
    [jumpPage], and through [handleJump] also [currentPage], can hold a
    number with a fraction.  The handlers are those of [DataTable], on such
    numbers.  (A cleared input stores the empty text, which the comparisons
    of [handleJump] read as 0; it is the number 0 here.) *)

Module Fractional.

Import EditDialog(DialogMode, add, edit, EditFormData).
Import DataTable(TableItem, spread_with_id, spread_row, ElMessage, success,
                 error, DeleteDone, EditDone, EditTargetMissing, AddDone, mock).

Record Pagination := mkPagination {
  currentPage : Q;
  pageSize : Z;
  jumpPage : Q
}.

Record State := mkState {
  tableData : list TableItem;
  dialogVisible : bool;
  currentEditData : option EditFormData;
  pagination : Pagination;
  dialogMode : DialogMode
}.

Definition set_tableData (l : list TableItem) (s : State) : State :=
  {| tableData := l; dialogVisible := s.(dialogVisible);
     currentEditData := s.(currentEditData); pagination := s.(pagination);
     dialogMode := s.(dialogMode) |}.

Definition set_pagination (p : Pagination) (s : State) : State :=
  {| tableData := s.(tableData); dialogVisible := s.(dialogVisible);
     currentEditData := s.(currentEditData); pagination := p;
     dialogMode := s.(dialogMode) |}.

Definition total (s : State) : Z := Z.of_nat (length s.(tableData)).

Definition totalPages (s : State) : Z :=
  Js.ceil_div (total s) s.(pagination).(pageSize).

(** [slice(start, end)] with [start = (currentPage - 1) * pageSize] and
    [end = start + pageSize], each bound cut to its whole part. *)
Definition paginatedData (s : State) : list TableItem :=
  let start :=
    Number.mul (Number.sub s.(pagination).(currentPage) (Number.of_Z 1))
               (Number.of_Z s.(pagination).(pageSize)) in
  let stop := Number.add start (Number.of_Z s.(pagination).(pageSize)) in
  Js.slice s.(tableData) (Number.to_integer start) (Number.to_integer stop).

Definition handleAdd (s : State) : State :=
  {| tableData := s.(tableData); dialogVisible := true;
     currentEditData := None; pagination := s.(pagination);
     dialogMode := add |}.

Definition handleEdit (row : TableItem) (s : State) : State :=
  {| tableData := s.(tableData); dialogVisible := true;
     currentEditData := Some (spread_row row); pagination := s.(pagination);
     dialogMode := edit |}.

Definition handleDelete (confirmed : bool) (row : TableItem) (s : State)
  : State * list ElMessage :=
  if confirmed then
    let index :=
      Js.findIndex (fun item => item.(DataTable.id) =? row.(DataTable.id))
                   s.(tableData) in
    if -1 <? index then
      let s1 := set_tableData (Js.splice1 index s.(tableData)) s in
      let p := s1.(pagination) in
      if (Z.of_nat (length (paginatedData s1)) =? 0)
         && Number.ltb (Number.of_Z 1) p.(currentPage) then
        let cp := Number.sub p.(currentPage) (Number.of_Z 1) in
        (set_pagination
           {| currentPage := cp; pageSize := p.(pageSize); jumpPage := cp |} s1,
         [success DeleteDone])
      else (s1, [success DeleteDone])
    else (s, [])
  else (s, []).

Definition modeHandlers_edit (data : EditFormData) (s : State)
  : State * list ElMessage :=
  match data.(EditDialog.id) with
  | Some k =>
      let index :=
        Js.findIndex (fun item => item.(DataTable.id) =? k) s.(tableData) in
      if -1 <? index then
        (set_tableData
           (<[Z.to_nat index := spread_with_id data k]> s.(tableData)) s,
         [success EditDone])
      else (s, [error EditTargetMissing])
  | None => (s, [error EditTargetMissing])
  end.

Definition modeHandlers_add (data : EditFormData) (s : State)
  : State * list ElMessage :=
  let newId :=
    Js.add (Js.max0 ((fun item => item.(DataTable.id)) <$> s.(tableData))) 1 in
  let s1 := set_tableData (s.(tableData) ++ [spread_with_id data newId]) s in
  let pages := Number.of_Z (totalPages s1) in
  (set_pagination
     {| currentPage := pages; pageSize := s1.(pagination).(pageSize);
        jumpPage := pages |} s1,
   [success AddDone]).

Definition handleDialogConfirm (data : EditFormData) (s : State)
  : State * list ElMessage :=
  match s.(dialogMode) with
  | edit => modeHandlers_edit data s
  | add => modeHandlers_add data s
  end.

Definition handleSizeChange (val : Z) (s : State) : State :=
  set_pagination
    {| currentPage := Number.of_Z 1; pageSize := val;
       jumpPage := s.(pagination).(jumpPage) |} s.

Definition handleCurrentChange (val : Q) (s : State) : State :=
  set_pagination
    {| currentPage := val; pageSize := s.(pagination).(pageSize);
       jumpPage := val |} s.

(** [v-model.number="pagination.jumpPage"]: typing into the jump input. *)
Definition inputJumpPage (val : Q) (s : State) : State :=
  set_pagination
    {| currentPage := s.(pagination).(currentPage);
       pageSize := s.(pagination).(pageSize); jumpPage := val |} s.

Definition handleJump (s : State) : State :=
  let p := s.(pagination) in
  if Number.leb (Number.of_Z 1) p.(jumpPage)
     && Number.leb p.(jumpPage) (Number.of_Z (totalPages s)) then
    set_pagination
      {| currentPage := p.(jumpPage); pageSize := p.(pageSize);
         jumpPage := p.(jumpPage) |} s
  else s.

Definition updateVisible (value : bool) (s : State) : State :=
  {| tableData := s.(tableData); dialogVisible := value;
     currentEditData := s.(currentEditData); pagination := s.(pagination);
     dialogMode := s.(dialogMode) |}.

(** A state of [DataTable], its page numbers taken as numbers. *)
Definition embed (s : DataTable.State) : State :=
  {| tableData := s.(DataTable.tableData);
     dialogVisible := s.(DataTable.dialogVisible);
     currentEditData := s.(DataTable.currentEditData);
     pagination :=
       {| currentPage :=
            Number.of_Z s.(DataTable.pagination).(DataTable.currentPage);
          pageSize := s.(DataTable.pagination).(DataTable.pageSize);
          jumpPage :=
            Number.of_Z s.(DataTable.pagination).(DataTable.jumpPage) |};
     dialogMode := s.(DataTable.dialogMode) |}.

Definition initial : State := embed DataTable.initial.

Inductive Action :=
  | click_add
  | click_edit (row : TableItem)
  | click_delete (row : TableItem) (confirmed : bool)
  | dialog_confirm (data : EditFormData)
  | dialog_update_visible (value : bool)
  | size_change (val : Z)
  | current_change (val : Q)
  | input_jump (val : Q)
  | jump_enter.

Definition step (a : Action) (s : State) : State * list ElMessage :=
  match a with
  | click_add => (handleAdd s, [])
  | click_edit row => (handleEdit row s, [])
  | click_delete row confirmed => handleDelete confirmed row s
  | dialog_confirm data => handleDialogConfirm data s
  | dialog_update_visible value => (updateVisible value s, [])
  | size_change val => (handleSizeChange val s, [])
  | current_change val => (handleCurrentChange val s, [])
  | input_jump val => (inputJumpPage val s, [])
  | jump_enter => (handleJump s, [])
  end.

(** An event of [DataTable], its page number taken as a number. *)
Definition embed_action (a : DataTable.Action) : Action :=
  match a with
  | DataTable.click_add => click_add
  | DataTable.click_edit row => click_edit row
  | DataTable.click_delete row confirmed => click_delete row confirmed
  | DataTable.dialog_confirm data => dialog_confirm data
  | DataTable.dialog_update_visible value => dialog_update_visible value
  | DataTable.size_change val => size_change val
  | DataTable.current_change val => current_change (Number.of_Z val)
  | DataTable.input_jump val => input_jump (Number.of_Z val)
  | DataTable.jump_enter => jump_enter
  end.

(** The pagination invariant: with a non-empty collection the current page
    is at most the number of pages. *)
Definition page_in_range (s : State) : Prop :=
  0 < total s -> (s.(pagination).(currentPage) <= Number.of_Z (totalPages s))%Q.

(** The current page is a page of the collection. *)
Definition on_a_page (s : State) : Prop :=
  0 < s.(pagination).(pageSize) /\
  (Number.of_Z 1 <= s.(pagination).(currentPage))%Q /\
  page_in_range s.

End Fractional.

(** * Properties *)

(** ** Facts about the JavaScript primitives *)

Section JsFacts.

Context {A : Type}.
Implicit Types (p : A -> bool) (l : list A).

Lemma findIndex_from_range p l i r :
  Js.findIndex_from p l i = r -> r = -1 \/ i <= r < i + Z.of_nat (length l).
Proof.
  revert i; induction l as [|x l IH]; intros i; simpl.
  - intros <-; by left.
  - destruct (p x).
    + intros <-; right; lia.
    + intros H. destruct (IH _ H) as [->|?]; [by left | right; lia].
Qed.

(** A hit is the first element satisfying the predicate. *)
Lemma findIndex_from_hit p l i r :
  0 <= i -> Js.findIndex_from p l i = r -> -1 < r ->
  exists n x, r = i + Z.of_nat n /\ l !! n = Some x /\ p x = true /\
    forall m y, (m < n)%nat -> l !! m = Some y -> p y = false.
Proof.
  revert i; induction l as [|x l IH]; intros i Hi; simpl.
  - intros <- ?; lia.
  - destruct (p x) eqn:Hx.
    + intros <- _. exists 0%nat, x. repeat split; [lia | done | lia].
    + intros H Hr. destruct (IH (i + 1) ltac:(lia) H Hr) as (n & y & -> & Hl & Hy & Hm).
      exists (S n), y. repeat split; [lia | done | done |].
      intros [|m] z Hlt Hz; simpl in Hz; [by simplify_eq | eapply Hm; [|done]; lia].
Qed.

Lemma findIndex_from_miss p l i :
  0 <= i -> (Js.findIndex_from p l i = -1 <-> forall x, x ∈ l -> p x = false).
Proof.
  revert i; induction l as [|x l IH]; intros i Hi; simpl.
  - split; [intros _ x Hx; by apply elem_of_nil in Hx | done].
  - destruct (p x) eqn:Hx.
    + split; [lia |]. intros H. specialize (H x ltac:(left)). congruence.
    + rewrite IH by lia. split.
      * intros H y [->|Hy]%elem_of_cons; auto.
      * intros H y Hy. apply H. by right.
Qed.

Lemma findIndex_hit p l r :
  Js.findIndex p l = r -> -1 < r ->
  exists n x, r = Z.of_nat n /\ l !! n = Some x /\ p x = true /\
    forall m y, (m < n)%nat -> l !! m = Some y -> p y = false.
Proof.
  intros H Hr. destruct (findIndex_from_hit p l 0 r ltac:(lia) H Hr)
    as (n & x & -> & ?). exists n, x. split; [lia | done].
Qed.

Lemma findIndex_miss p l :
  Js.findIndex p l = -1 <-> forall x, x ∈ l -> p x = false.
Proof. by apply findIndex_from_miss. Qed.

Lemma findIndex_exists p l x :
  x ∈ l -> p x = true -> -1 < Js.findIndex p l.
Proof.
  intros Hx Hp. unfold Js.findIndex.
  destruct (findIndex_from_range p l 0 _ eq_refl) as [H|H]; [|lia].
  rewrite (findIndex_from_miss p l 0) in H by lia. specialize (H x Hx). congruence.
Qed.

(** A slice that starts at or after the end of the array is empty. *)
Lemma slice_past_end l start stop :
  Z.of_nat (length l) <= start -> Js.slice l start stop = [].
Proof.
  intros H. unfold Js.slice, Js.rel_index.
  destruct (start <? 0) eqn:E; [lia|].
  rewrite drop_ge; [by rewrite take_nil | lia].
Qed.

(** A slice that starts inside the array and has room is not empty. *)
Lemma slice_inside l start stop :
  0 <= start < Z.of_nat (length l) -> start < stop -> Js.slice l start stop <> [].
Proof.
  intros H1 H2. unfold Js.slice, Js.rel_index.
  destruct (start <? 0) eqn:E1; [lia|]. destruct (stop <? 0) eqn:E2; [lia|].
  intros E. apply (f_equal length) in E. rewrite length_take, length_drop in E.
  simpl in E. lia.
Qed.

End JsFacts.

Lemma max0_upper xs x : x ∈ xs -> x <= Js.max0 xs.
Proof.
  unfold Js.max0. induction xs as [|y xs IH]; [by intros ?%elem_of_nil|].
  intros [->|H]%elem_of_cons; simpl; [lia | specialize (IH H); lia].
Qed.

Lemma max0_attained xs : Js.max0 xs = 0 \/ Js.max0 xs ∈ xs.
Proof.
  unfold Js.max0. induction xs as [|y xs IH]; [by left|]. simpl.
  destruct (Z.max_spec y (foldr Z.max 0 xs)) as [[_ ->]|[_ ->]].
  - destruct IH as [?|?]; [by left | right; by right].
  - right; by left.
Qed.

Lemma max0_nonneg xs : 0 <= Js.max0 xs.
Proof. unfold Js.max0. induction xs; simpl; lia. Qed.

Lemma max0_le xs b : 0 <= b -> (forall x, x ∈ xs -> x <= b) -> Js.max0 xs <= b.
Proof.
  intros Hb H. destruct (max0_attained xs) as [->|Hin]; [done | by apply H].
Qed.

(** Addition is exact while the sum is at most [2 ^ 53] in magnitude. *)
Lemma add_exact a b : Z.abs (a + b) <= 2 ^ 53 -> Js.add a b = a + b.
Proof.
  intros H. unfold Js.add, Js.to_double.
  by rewrite (proj2 (Z.leb_le _ _) H).
Qed.

Lemma add_1_safe m : 0 <= m <= Js.MAX_SAFE_INTEGER -> Js.add m 1 = m + 1.
Proof. unfold Js.MAX_SAFE_INTEGER. intros H. apply add_exact. lia. Qed.

(** At [2 ^ 53] adding 1 is lost to rounding. *)
Lemma add_1_at_2_53 : Js.add (2 ^ 53) 1 = 2 ^ 53.
Proof. by vm_compute. Qed.

(** [ceil_div a b] is the least [c] with [a <= c * b]. *)
Lemma ceil_div_bounds a b :
  0 < b -> (Js.ceil_div a b - 1) * b < a <= Js.ceil_div a b * b.
Proof.
  intros Hb. unfold Js.ceil_div.
  pose proof (Z.div_mod (- a) b ltac:(lia)).
  pose proof (Z.mod_pos_bound (- a) b Hb). nia.
Qed.

Lemma ceil_div_unique a b c :
  0 < b -> (c - 1) * b < a <= c * b -> c = Js.ceil_div a b.
Proof. intros Hb H. pose proof (ceil_div_bounds a b Hb). nia. Qed.

Lemma ceil_div_ge a b j : 0 < b -> j <= Js.ceil_div a b <-> (j - 1) * b < a.
Proof. intros Hb. pose proof (ceil_div_bounds a b Hb). split; intros; nia. Qed.

Lemma ceil_div_0 b : Js.ceil_div 0 b = 0.
Proof. unfold Js.ceil_div. simpl. by rewrite Zdiv_0_l. Qed.

Lemma slice_to_end {A} (l : list A) start stop :
  0 <= start -> Z.of_nat (length l) <= stop ->
  Js.slice l start stop = drop (Z.to_nat start) l.
Proof.
  intros H1 H2. unfold Js.slice, Js.rel_index.
  destruct (start <? 0) eqn:E1; [lia|]. destruct (stop <? 0) eqn:E2; [lia|].
  rewrite take_ge by (rewrite length_drop; lia).
  destruct (Z.le_gt_cases start (Z.of_nat (length l))).
  - by rewrite Z.min_l.
  - rewrite !drop_ge; [done | lia | lia].
Qed.

(** ** The listing component *)

Section TableFacts.

Import DataTable.
Import EditDialog(Enabled, Disabled, add, edit).
Implicit Types (s : State) (row : TableItem) (data : EditDialog.EditFormData).

Lemma total_pages_bounds s :
  0 < s.(pagination).(pageSize) ->
  (totalPages s - 1) * s.(pagination).(pageSize) < total s
    <= totalPages s * s.(pagination).(pageSize).
Proof. apply ceil_div_bounds. Qed.

(** A page is within the page count iff it starts inside the collection. *)
Lemma le_total_pages s j :
  0 < s.(pagination).(pageSize) ->
  j <= totalPages s <-> (j - 1) * s.(pagination).(pageSize) < total s.
Proof. apply ceil_div_ge. Qed.

(** [findIndex] on ids: the first row with the id, when there is one. *)
Lemma find_row_by_id (l : list TableItem) k :
  (exists x, x ∈ l /\ x.(id) = k) ->
  exists i old,
    Js.findIndex (fun item => item.(id) =? k) l = Z.of_nat i /\
    l !! i = Some old /\ old.(id) = k /\
    forall j y, (j < i)%nat -> l !! j = Some y -> y.(id) <> k.
Proof.
  intros (x & Hx & Hk).
  assert (-1 < Js.findIndex (fun item => item.(id) =? k) l) as Hr.
  { eapply findIndex_exists; [done|]. simpl. lia. }
  destruct (findIndex_hit _ _ _ eq_refl Hr) as (n & y & Hn & Hl & Hy & Hm).
  exists n, y. repeat split; [done | done | lia |].
  intros j z Hj Hz. specialize (Hm j z Hj Hz). simpl in Hm. lia.
Qed.

Lemma find_row_by_id_none (l : list TableItem) k :
  (forall x, x ∈ l -> x.(id) <> k) ->
  Js.findIndex (fun item => item.(id) =? k) l = -1.
Proof.
  intros H. apply findIndex_miss. intros x Hx. specialize (H x Hx). simpl. lia.
Qed.

(** C10: a confirmed delete of a row whose id is not in the collection does
    nothing: the state (collection, current page, jump target) is returned
    as it was and no message is shown. *)
Theorem delete_of_absent_row_is_silent row s confirmed :
  (forall x, x ∈ s.(tableData) -> x.(id) <> row.(id)) ->
  handleDelete confirmed row s = (s, []).
Proof.
  intros H. unfold handleDelete. destruct confirmed; [|done].
  by rewrite find_row_by_id_none.
Qed.

Lemma delete_of_absent_row_is_silent_witness :
  handleDelete true (mock 9999 1 Enabled) initial = (initial, []).
Proof.
  apply delete_of_absent_row_is_silent. intros x Hx. simpl in Hx.
  repeat (apply elem_of_cons in Hx as [->|Hx]; [done|]).
  by apply elem_of_nil in Hx.
Defined.

(** C4: an edit commit whose id is not in the collection shows the error
    message and returns the state (collection and pagination) unchanged. *)
Theorem edit_commit_of_absent_id_reports_error data s :
  s.(dialogMode) = EditDialog.edit ->
  (forall x, x ∈ s.(tableData) -> Some x.(id) <> data.(EditDialog.id)) ->
  handleDialogConfirm data s = (s, [error EditTargetMissing]).
Proof.
  intros Hmode H. unfold handleDialogConfirm, modeHandlers_edit. rewrite Hmode.
  destruct data.(EditDialog.id) as [k|] eqn:Hk; [|done].
  rewrite find_row_by_id_none; [done|].
  intros x Hx E. apply (H x Hx). by rewrite E.
Qed.

Lemma edit_commit_of_absent_id_reports_error_witness :
  handleDialogConfirm (spread_row (mock 9999 1 Enabled))
    (handleEdit (mock 9999 1 Enabled) initial)
  = (handleEdit (mock 9999 1 Enabled) initial, [error EditTargetMissing]).
Proof.
  apply edit_commit_of_absent_id_reports_error; [reflexivity|].
  intros x Hx. simpl in Hx.
  repeat (apply elem_of_cons in Hx as [->|Hx]; [done|]).
  by apply elem_of_nil in Hx.
Defined.

(** C3: an edit commit whose id is in the collection replaces the first row
    with that id by the draft, under the same id; every other position, the
    length, the order of ids and the pagination stay as they were. *)
Theorem edit_commit_replaces_only_target data s k :
  s.(dialogMode) = EditDialog.edit ->
  data.(EditDialog.id) = Some k ->
  (exists x, x ∈ s.(tableData) /\ x.(id) = k) ->
  exists i old,
    s.(tableData) !! i = Some old /\ old.(id) = k /\
    (forall j y, (j < i)%nat -> s.(tableData) !! j = Some y -> y.(id) <> k) /\
    let s' := (handleDialogConfirm data s).1 in
    s'.(tableData) = <[i := spread_with_id data k]> s.(tableData) /\
    s'.(tableData) !! i = Some (spread_with_id data k) /\
    (spread_with_id data k).(id) = old.(id) /\
    (forall j, j <> i -> s'.(tableData) !! j = s.(tableData) !! j) /\
    length s'.(tableData) = length s.(tableData) /\
    (fun item => item.(id)) <$> s'.(tableData)
      = (fun item => item.(id)) <$> s.(tableData) /\
    s'.(pagination) = s.(pagination) /\
    (handleDialogConfirm data s).2 = [success EditDone].
Proof.
  intros Hmode Hk Hex.
  destruct (find_row_by_id _ _ Hex) as (i & old & Hi & Hold & Hid & Hfirst).
  exists i, old. split; [done|]. split; [done|]. split; [done|].
  unfold handleDialogConfirm, modeHandlers_edit. rewrite Hmode, Hk, Hi.
  replace (-1 <? Z.of_nat i) with true by lia. rewrite Nat2Z.id. simpl.
  pose proof (lookup_lt_Some _ _ _ Hold) as Hlt.
  repeat split.
  - by apply list_lookup_insert_eq.
  - done.
  - intros j Hj. by apply list_lookup_insert_ne.
  - by rewrite length_insert.
  - rewrite list_fmap_insert. apply list_insert_id.
    rewrite list_lookup_fmap, Hold. simpl. by rewrite Hid.
Qed.

Lemma edit_commit_replaces_only_target_witness :
  exists i old,
    initial.(tableData) !! i = Some old /\ old.(id) = 2632 /\
    (handleDialogConfirm (spread_row (mock 2632 7 Enabled))
       (handleEdit (mock 2632 3 Disabled) initial)).1.(tableData) !! i
      = Some (mock 2632 7 Enabled).
Proof.
  destruct (edit_commit_replaces_only_target
              (spread_row (mock 2632 7 Enabled))
              (handleEdit (mock 2632 3 Disabled) initial) 2632
              eq_refl eq_refl)
    as (i & old & H1 & H2 & _ & _ & H3 & _).
  - exists (mock 2632 3 Disabled). split; [|done]. set_solver.
  - exists i, old. split; [exact H1|]. split; [exact H2|]. exact H3.
Defined.

(** C5: a confirmed delete removes the first row with the id; when the
    slice of the current page over what remains is empty and the current
    page is above 1, the current page goes down by one and the jump input
    takes that same value, otherwise the pagination is untouched.  On
    [[1;2;3]] with page size 2, deleting 3 from page 2 leads to page 1. *)
Theorem delete_steps_back_from_empty_page :
  (forall row s,
    (exists x, x ∈ s.(tableData) /\ x.(id) = row.(id)) ->
    exists i x,
      s.(tableData) !! i = Some x /\ x.(id) = row.(id) /\
      (forall j y, (j < i)%nat -> s.(tableData) !! j = Some y -> y.(id) <> row.(id)) /\
      let s' := (handleDelete true row s).1 in
      let p := s.(pagination) in
      let rest := delete i s.(tableData) in
      let start := (p.(currentPage) - 1) * p.(pageSize) in
      s'.(tableData) = rest /\
      s'.(pagination).(pageSize) = p.(pageSize) /\
      (Js.slice rest start (start + p.(pageSize)) = [] -> 1 < p.(currentPage) ->
         s'.(pagination).(currentPage) = p.(currentPage) - 1 /\
         s'.(pagination).(jumpPage) = p.(currentPage) - 1) /\
      (Js.slice rest start (start + p.(pageSize)) <> [] \/ p.(currentPage) <= 1 ->
         s'.(pagination) = p) /\
      (handleDelete true row s).2 = [success DeleteDone])
  /\ paginatedData (set_pagination {| currentPage := 1; pageSize := 2; jumpPage := 1 |} three_rows)
       = [mock 1 1 Enabled; mock 2 2 Enabled]
  /\ paginatedData three_rows = [mock 3 3 Enabled]
  /\ (handleDelete true (mock 3 3 Enabled) three_rows).1.(pagination).(currentPage) = 1
  /\ (handleDelete true (mock 3 3 Enabled) three_rows).1.(pagination).(jumpPage) = 1.
Proof.
  split; [|by vm_compute].
  intros row s Hex.
  destruct (find_row_by_id _ _ Hex) as (i & x & Hi & Hx & Hid & Hfirst).
  exists i, x. split; [done|]. split; [done|]. split; [done|].
  unfold handleDelete. rewrite Hi.
  replace (-1 <? Z.of_nat i) with true by lia.
  unfold Js.splice1. rewrite Nat2Z.id. unfold paginatedData. simpl.
  set (rest := delete i s.(tableData)).
  set (start := (s.(pagination).(currentPage) - 1) * s.(pagination).(pageSize)).
  destruct (Js.slice rest start (start + s.(pagination).(pageSize))) as [|y r] eqn:E;
    simpl.
  - destruct (1 <? s.(pagination).(currentPage)) eqn:E1; simpl.
    + repeat split; try done. intros [Hn|Hn]; [done | lia].
    + repeat split; try done; lia.
  - repeat split; done.
Qed.

Lemma delete_steps_back_from_empty_page_witness :
  exists i x,
    three_rows.(tableData) !! i = Some x /\ x.(id) = 3 /\
    (handleDelete true (mock 3 3 Enabled) three_rows).1.(tableData)
      = delete i three_rows.(tableData).
Proof.
  destruct (proj1 delete_steps_back_from_empty_page (mock 3 3 Enabled) three_rows)
    as (i & x & H1 & H2 & _ & H3 & _).
  - exists (mock 3 3 Enabled). split; [|done]. set_solver.
  - exists i, x. split; [exact H1|]. split; [exact H2|]. exact H3.
Defined.

(** C2: while the ids are at most [Number.MAX_SAFE_INTEGER], so that adding
    1 is exact, an add commit appends a row that carries the draft's fields
    under the id [max(ids, 0) + 1] (above every existing id, at least 1, and
    one more than an existing id unless it is 1), and sets the current page
    and the jump input to the last page of the collection as it is after
    the append, where the new row is shown last; ids [[2;5]] give 6 and an
    empty collection gives 1. *)
Theorem add_commit_appends_with_next_id :
  (forall data s,
    s.(dialogMode) = add -> 0 < s.(pagination).(pageSize) -> safe_ids s ->
    let s' := (handleDialogConfirm data s).1 in
    exists row c,
      s'.(tableData) = s.(tableData) ++ [row] /\
      row.(id) = Js.max0 ((fun item => item.(id)) <$> s.(tableData)) + 1 /\
      row.(categoryNameZh) = data.(EditDialog.categoryNameZh) /\
      row.(categoryNameEn) = data.(EditDialog.categoryNameEn) /\
      row.(sortOrder) = data.(EditDialog.sortOrder) /\
      row.(status) = data.(EditDialog.status) /\
      (forall x, x ∈ s.(tableData) -> x.(id) < row.(id)) /\
      1 <= row.(id) /\
      (row.(id) = 1 \/ exists x, x ∈ s.(tableData) /\ x.(id) = row.(id) - 1) /\
      total s' = total s + 1 /\
      s'.(pagination).(currentPage) = c /\
      s'.(pagination).(jumpPage) = c /\
      s'.(pagination).(pageSize) = s.(pagination).(pageSize) /\
      c = totalPages s' /\
      (c - 1) * s.(pagination).(pageSize) < total s' <= c * s.(pagination).(pageSize) /\
      last (paginatedData s') = Some row /\
      (handleDialogConfirm data s).2 = [success AddDone])
  /\ (forall data,
       exists row,
         (handleDialogConfirm data two_rows).1.(tableData)
           = two_rows.(tableData) ++ [row] /\ row.(id) = 6)
  /\ (forall data s,
       s.(dialogMode) = add -> s.(tableData) = [] ->
       exists row,
         (handleDialogConfirm data s).1.(tableData) = [row] /\ row.(id) = 1).
Proof.
  split; [|split].
  - intros data s Hmode Hps Hsafe. unfold handleDialogConfirm. rewrite Hmode.
    unfold modeHandlers_add. simpl.
    set (ids := (fun item => item.(id)) <$> s.(tableData)).
    assert (Js.add (Js.max0 ids) 1 = Js.max0 ids + 1) as ->.
    { apply add_1_safe. split; [apply max0_nonneg|].
      apply max0_le; [by vm_compute|].
      intros k (x & -> & Hx)%list_elem_of_fmap. by apply Hsafe. }
    set (newId := Js.max0 ids + 1).
    set (l' := s.(tableData) ++ [spread_with_id data newId]).
    set (s1 := set_tableData l' s).
    assert (total s1 = total s + 1) as Htot.
    { unfold total, s1, l'. simpl. rewrite length_app. simpl. lia. }
    pose proof (total_pages_bounds s1 Hps) as Hb. simpl in Hb.
    exists (spread_with_id data newId), (totalPages s1).
    assert (totalPages (set_pagination
              {| currentPage := totalPages s1; pageSize := s.(pagination).(pageSize);
                 jumpPage := totalPages s1 |} s1) = totalPages s1) as Hsame by done.
    assert (total (set_pagination
              {| currentPage := totalPages s1; pageSize := s.(pagination).(pageSize);
                 jumpPage := totalPages s1 |} s1) = total s1) as Htot' by done.
    cbn [spread_with_id id categoryNameZh categoryNameEn sortOrder status].
    split_and!; try done; try lia.
    + intros x Hx. pose proof (max0_upper ids x.(id)) as Hu.
      unfold newId. enough (x.(id) <= Js.max0 ids) by lia.
      apply Hu. apply list_elem_of_fmap. by exists x.
    + pose proof (max0_nonneg ids). unfold newId. lia.
    + destruct (max0_attained ids) as [H0|Hin]; [left; unfold newId; lia|].
      right. apply list_elem_of_fmap in Hin as (x & Hx & Hin).
      exists x. split; [done|]. unfold newId. lia.
    + unfold paginatedData. simpl.
      pose proof (Zle_0_nat (length s.(tableData))) as Hlen. unfold total in *.
      assert (1 <= totalPages s1) by nia.
      assert (length l' = S (length s.(tableData))) as Hl'.
      { unfold l'. rewrite length_app. simpl. lia. }
      rewrite slice_to_end; [| nia | unfold s1 in *; simpl in *; lia].
      unfold l'. rewrite drop_app_le.
      * by rewrite last_snoc.
      * unfold s1 in *. simpl in *. nia.
  - intros data. eexists. split; [by vm_compute | done].
  - intros data s Hmode Hnil. unfold handleDialogConfirm. rewrite Hmode.
    unfold modeHandlers_add. simpl. rewrite Hnil. eexists. split; [done|].
    by vm_compute.
Qed.

Lemma add_commit_appends_with_next_id_witness :
  exists row c,
    (handleDialogConfirm EditDialog.defaultForm (handleAdd initial)).1.(tableData)
      = initial.(tableData) ++ [row] /\
    row.(id) = 2700 /\
    (handleDialogConfirm EditDialog.defaultForm (handleAdd initial)).1
      .(pagination).(currentPage) = c.
Proof.
  destruct (proj1 add_commit_appends_with_next_id EditDialog.defaultForm
              (handleAdd initial) eq_refl eq_refl)
    as (row & c & H1 & Hid & _ & _ & _ & _ & _ & _ & _ & _ & H2 & _).
  - intros x Hx. simpl in Hx.
    repeat (apply elem_of_cons in Hx as [->|Hx]; [by vm_compute|]).
    by apply elem_of_nil in Hx.
  - exists row, c. split; [exact H1|]. split; [exact Hid | exact H2].
Defined.

(** C8: [handleJump] sets the current page to the jump target when the
    target lies in [[1, ceil(total / pageSize)]], that is when it is at
    least 1 and its page starts inside the collection, and changes nothing
    otherwise; with an empty collection no target is accepted. *)
Theorem jump_accepted_iff_in_range s :
  0 < s.(pagination).(pageSize) ->
  let p := s.(pagination) in
  (1 <= p.(jumpPage) <= totalPages s ->
     handleJump s = set_pagination
       {| currentPage := p.(jumpPage); pageSize := p.(pageSize);
          jumpPage := p.(jumpPage) |} s) /\
  (~ (1 <= p.(jumpPage) <= totalPages s) -> handleJump s = s) /\
  ((handleJump s).(pagination).(currentPage) = p.(jumpPage) <->
     1 <= p.(jumpPage) <= totalPages s \/ p.(currentPage) = p.(jumpPage)) /\
  (p.(jumpPage) <= totalPages s <-> (p.(jumpPage) - 1) * p.(pageSize) < total s) /\
  (s.(tableData) = [] -> totalPages s = 0 /\ handleJump s = s).
Proof.
  intros Hps p.
  assert (1 <= p.(jumpPage) <= totalPages s ->
          handleJump s = set_pagination
            {| currentPage := p.(jumpPage); pageSize := p.(pageSize);
               jumpPage := p.(jumpPage) |} s) as Hin.
  { intros [H1 H2]. unfold handleJump. fold p.
    apply Z.leb_le in H1, H2. by rewrite H1, H2. }
  assert (~ (1 <= p.(jumpPage) <= totalPages s) -> handleJump s = s) as Hout.
  { intros H. unfold handleJump. fold p.
    destruct (1 <=? p.(jumpPage)) eqn:E1; [|done].
    destruct (p.(jumpPage) <=? totalPages s) eqn:E2; [|done].
    exfalso. apply H. lia. }
  split_and!; [done | done | | by apply le_total_pages |].
  - destruct (decide (1 <= p.(jumpPage) <= totalPages s)) as [Hd|Hd].
    + rewrite Hin by done. simpl. split; [by left | done].
    + rewrite Hout by done. fold p. split; [by right | by intros [?|?]].
  - intros Hnil.
    assert (totalPages s = 0) as H0.
    { unfold totalPages, total. rewrite Hnil. apply ceil_div_0. }
    split; [done|]. apply Hout. lia.
Qed.

Lemma jump_accepted_iff_in_range_witness :
  (handleJump (inputJumpPage 3 initial)).(pagination).(currentPage) = 3
  /\ handleJump (inputJumpPage 5 initial) = inputJumpPage 5 initial.
Proof.
  destruct (jump_accepted_iff_in_range (inputJumpPage 3 initial) eq_refl)
    as (H1 & _).
  destruct (jump_accepted_iff_in_range (inputJumpPage 5 initial) eq_refl)
    as (_ & H2 & _).
  split.
  - rewrite H1; [reflexivity | by vm_compute].
  - apply H2. intros [_ H]. vm_compute in H. exact (H eq_refl).
Defined.

(** *** The pagination invariant *)

Lemma page_in_range_alt s :
  0 < s.(pagination).(pageSize) ->
  page_in_range s <->
  (0 < total s ->
   (s.(pagination).(currentPage) - 1) * s.(pagination).(pageSize) < total s).
Proof.
  intros Hps. unfold page_in_range. by rewrite le_total_pages.
Qed.

Lemma handleDelete_page_size confirmed row s :
  (handleDelete confirmed row s).1.(pagination).(pageSize) = s.(pagination).(pageSize).
Proof.
  unfold handleDelete. destruct confirmed; [|done].
  destruct (-1 <? _); [|done]. by destruct (_ && _).
Qed.

Lemma handleDelete_page_in_range confirmed row s :
  0 < s.(pagination).(pageSize) ->
  page_in_range s -> page_in_range (handleDelete confirmed row s).1.
Proof.
  intros Hps Hinv.
  assert (0 < (handleDelete confirmed row s).1.(pagination).(pageSize)) as Hps'
    by by rewrite handleDelete_page_size.
  apply (proj2 (page_in_range_alt _ Hps')).
  pose proof (proj1 (page_in_range_alt _ Hps) Hinv) as Hcur. clear Hinv.
  revert Hps'. unfold handleDelete. destruct confirmed; [|done].
  destruct (-1 <? Js.findIndex _ _) eqn:Hidx; [|done].
  match type of Hidx with
  | (-1 <? ?r) = true =>
      destruct (findIndex_hit _ _ r eq_refl ltac:(lia)) as (n & x & Hn & Hl & _)
  end.
  pose proof (length_delete _ n (mk_is_Some _ _ Hl)) as Hlen. unfold Js.splice1.
  rewrite Hn, Nat2Z.id.
  unfold paginatedData, total in *. simpl in *.
  set (rest := delete n s.(tableData)) in *.
  set (start := (s.(pagination).(currentPage) - 1) * s.(pagination).(pageSize)) in *.
  pose proof (lookup_lt_Some _ _ _ Hl) as Hlt.
  specialize (Hcur ltac:(lia)).
  destruct (Js.slice rest start _) as [|y r] eqn:E; simpl.
  - destruct (1 <? s.(pagination).(currentPage)) eqn:E1; simpl; intros _ ?; nia.
  - intros _ ?. destruct (Z.le_gt_cases (Z.of_nat (length rest)) start) as [Hge|?];
      [|lia]. by rewrite slice_past_end in E.
Qed.

Lemma handleDialogConfirm_page_size data s :
  (handleDialogConfirm data s).1.(pagination).(pageSize) = s.(pagination).(pageSize).
Proof.
  unfold handleDialogConfirm, modeHandlers_edit, modeHandlers_add.
  destruct s.(dialogMode); [done|].
  destruct data.(EditDialog.id); [|done]. by destruct (-1 <? _).
Qed.

Lemma handleDialogConfirm_page_in_range data s :
  page_in_range s -> page_in_range (handleDialogConfirm data s).1.
Proof.
  intros Hinv. unfold handleDialogConfirm, modeHandlers_edit, modeHandlers_add.
  destruct s.(dialogMode).
  - unfold page_in_range. simpl. intros _. done.
  - destruct data.(EditDialog.id); [|done]. destruct (-1 <? _); [|done].
    unfold page_in_range, totalPages, total in *. simpl.
    by rewrite length_insert.
Qed.

Lemma step_page_size a s :
  0 < s.(pagination).(pageSize) -> offered a s ->
  0 < (step a s).1.(pagination).(pageSize).
Proof.
  intros Hps Hoff. destruct a; simpl; try done.
  - by rewrite handleDelete_page_size.
  - by rewrite handleDialogConfirm_page_size.
  - simpl in Hoff. unfold pageSizeOptions in Hoff.
    repeat (apply elem_of_cons in Hoff as [->|Hoff]; [lia|]).
    by apply elem_of_nil in Hoff.
  - unfold handleJump. by destruct (_ && _).
Qed.

Lemma step_page_in_range a s :
  0 < s.(pagination).(pageSize) -> page_in_range s -> offered a s ->
  page_in_range (step a s).1.
Proof.
  intros Hps Hinv Hoff. destruct a; simpl; try done.
  - by apply handleDelete_page_in_range.
  - by apply handleDialogConfirm_page_in_range.
  - pose proof (step_page_size (size_change val) s Hps Hoff) as Hval.
    apply (proj2 (page_in_range_alt _ Hval)). simpl. lia.
  - unfold handleJump.
    destruct (1 <=? _) eqn:E1; [|done]. destruct (_ <=? totalPages s) eqn:E2; [|done].
    simpl. intros _. change (s.(pagination).(jumpPage) <= totalPages s). lia.
Qed.

End TableFacts.

(** ** The dialog *)

(* [set_solver] clears hypotheses that its own steps may have consumed. *)
#[local] Set Warnings "-clear-no-such-hyp".

Section DialogFacts.

Import EditDialog.
Implicit Types (d : Dialog) (o : EditFormData) (l : loc) (props : Props).

(** *** A new draft object *)

Lemma assign_form_fresh o d : (assign_form o d).(form) ∉ dom (d.(store)).
Proof. apply is_fresh. Qed.

Lemma assign_form_draft o d : draft (assign_form o d) = Some o.
Proof. unfold draft, deref, assign_form. simpl. apply lookup_insert_eq. Qed.

Lemma assign_form_frame o d l :
  l ∈ dom (d.(store)) -> deref (assign_form o d) l = deref d l.
Proof.
  intros Hl. unfold deref, assign_form. simpl. apply lookup_insert_ne.
  intros <-. by apply (is_fresh (dom (d.(store)))).
Qed.

Lemma assign_form_dom o d :
  dom (assign_form o d).(store) = {[ (assign_form o d).(form) ]} ∪ dom (d.(store)).
Proof. unfold assign_form. simpl. apply dom_insert_L. Qed.

(** [initForm] always installs a new draft object and reads the store
    without writing to any object that was there. *)
Lemma initForm_assigns props d : exists o, initForm props d = assign_form o d.
Proof. unfold initForm. destruct (if isEditMode props then _ else _); eauto. Qed.

(** The number input. *)
Lemma clamp_range n : sortOrder_min <= clamp n <= sortOrder_max.
Proof.
  unfold clamp, sortOrder_min, sortOrder_max.
  destruct (9999 <? n) eqn:E1; [lia|]. destruct (n <? 1) eqn:E2; lia.
Qed.

Lemma clamp_inside n : sortOrder_min <= n <= sortOrder_max -> clamp n = n.
Proof.
  unfold clamp, sortOrder_min, sortOrder_max. intros Hn.
  destruct (9999 <? n) eqn:E1; [lia|]. destruct (n <? 1) eqn:E2; [lia | done].
Qed.

Lemma number_input_inside o :
  (forall n, o.(sortOrder) = Some n -> sortOrder_min <= n <= sortOrder_max) ->
  number_input o = o.
Proof.
  intros Hn. destruct o as [i z e [n|] st]; unfold number_input; simpl; [|done].
  by rewrite clamp_inside by (by apply Hn).
Qed.

Lemma mount_form_draft d : draft (mount_form d) = number_input <$> draft d.
Proof.
  unfold mount_form, draft. destruct (deref d d.(form)) eqn:E; [|by rewrite E].
  unfold deref. simpl. by rewrite lookup_insert_eq.
Qed.

(** What [x || d] yields on each kind of field. *)
Lemma or_else_string (x : option Js.jsstring) : or_else x [] = default [] x.
Proof. by destruct x as [[|c s]|]. Qed.

Lemma or_else_number (x : option Z) (dflt : Z) :
  or_else x dflt = match x with
                   | Some n => if n =? 0 then dflt else n
                   | None => dflt
                   end.
Proof. destruct x as [n|]; [|done]. unfold or_else, truthy, number_truthy. by destruct (n =? 0). Qed.

Lemma or_else_status (x : option Status) (dflt : Status) : or_else x dflt = default dflt x.
Proof. by destruct x. Qed.

(** C6: when [visible] goes from false to true the draft is initialized
    before the dialog is rendered with the new props, so that the first
    thing shown is the new draft.  The draft is a new object.  In edit mode
    with [formData] present, a record (its sort order, if present, is not 0:
    the records have a sort order of at least 1), it carries the id as
    given and every other field as given, or its default when missing:
    empty names, sort order 1, status enabled.  In add mode, or without
    [formData], it is exactly the default draft, without an id.  Neither
    depends on the draft that was there before, and no object that existed
    is written.  What is shown is that draft, as the inputs hold it: the
    number input holds a sort order above 9999 as 9999. *)
Theorem open_initializes_draft_before_render old props d :
  old.(visible) = false -> props.(visible) = true ->
  (forall fd, props.(formData) ≫= deref d = Some fd -> fd.(sortOrder) <> Some 0) ->
  let init :=
    match props.(mode), props.(formData) ≫= deref d with
    | edit, Some fd =>
        {| id := fd.(id);
           categoryNameZh := Some (default [] fd.(categoryNameZh));
           categoryNameEn := Some (default [] fd.(categoryNameEn));
           sortOrder := Some (default 1 fd.(sortOrder));
           status := Some (default Enabled fd.(status)) |}
    | _, _ =>
        {| id := None; categoryNameZh := Some []; categoryNameEn := Some [];
           sortOrder := Some 1; status := Some Enabled |}
    end in
  let d' := set_visible old.(visible) props d in
  draft d' = Some init /\
  (d'.(form) ∉ dom (d.(store))) /\
  (forall l, l ∈ dom (d.(store)) -> deref d' l = deref d l) /\
  d'.(formRef) = d.(formRef) /\
  (update_props old props d).2
  = {| shown := true; inputs := Some (number_input init) |} /\
  ((forall n, init.(sortOrder) = Some n -> 1 <= n <= 9999) ->
   (update_props old props d).2 = {| shown := true; inputs := Some init |}).
Proof.
  intros Hold Hv Hrec init d'.
  assert (draft d' = Some init) as Hd.
  { subst d' init. rewrite Hold. unfold set_visible, watch_visible. rewrite Hv. simpl.
    unfold initForm, isEditMode.
    destruct props.(mode); simpl; [apply assign_form_draft|].
    destruct (props.(formData) ≫= deref d) as [fd|] eqn:Hfd;
      [|apply assign_form_draft].
    rewrite assign_form_draft, !or_else_string, or_else_number, or_else_status.
    specialize (Hrec fd eq_refl). do 2 f_equal.
    destruct fd.(sortOrder) as [n|]; [|done]. simpl.
    destruct (n =? 0) eqn:E; [|done]. apply Z.eqb_eq in E. by subst. }
  assert ((update_props old props d).2
          = {| shown := true; inputs := Some (number_input init) |}) as Hshown.
  { unfold update_props, render. rewrite Hv. simpl. fold d'.
    rewrite mount_form_draft, Hd. done. }
  split_and!; [done | | | | done |].
  - subst d'. rewrite Hold. unfold set_visible, watch_visible. rewrite Hv. simpl.
    destruct (initForm_assigns props d) as [o ->]. apply assign_form_fresh.
  - intros l Hl. subst d'. rewrite Hold. unfold set_visible, watch_visible.
    rewrite Hv. simpl.
    destruct (initForm_assigns props d) as [o ->]. by apply assign_form_frame.
  - subst d'. rewrite Hold. unfold set_visible, watch_visible. rewrite Hv. simpl.
    by destruct (initForm_assigns props d) as [o ->].
  - intros Hn. rewrite Hshown. by rewrite number_input_inside.
Qed.

Lemma open_initializes_draft_before_render_witness :
  (draft (set_visible false open_edit_1 (page_with record_5)) = Some record_5
   /\ (update_props closed open_edit_1 (page_with record_5)).2
      = {| shown := true; inputs := Some record_5 |})
  /\ draft (set_visible false open_add
              (handleInput (input_sortOrder (Some 9)) (page_with record_5)))
     = Some defaultForm.
Proof.
  split; [split|].
  - exact (proj1
      (open_initializes_draft_before_render closed open_edit_1 (page_with record_5)
         eq_refl eq_refl ltac:(by intros fd [= <-]))).
  - apply (open_initializes_draft_before_render closed open_edit_1
             (page_with record_5) eq_refl eq_refl ltac:(by intros fd [= <-])).
    intros n Hn. vm_compute in Hn. injection Hn as <-. lia.
  - exact (proj1
      (open_initializes_draft_before_render closed open_add
         (handleInput (input_sortOrder (Some 9)) (page_with record_5))
         eq_refl eq_refl ltac:(by intros fd [=]))).
Defined.

(** *** Validation *)

Lemma char_count_nonneg (s : Js.jsstring) : 0 <= char_count s.
Proof.
  induction s as [s IH] using (induction_ltof1 _ (@length N)); unfold ltof in IH.
  destruct s as [|c [|c' r']]; simpl; [lia | lia |].
  destruct (is_high_surrogate c && is_low_surrogate c').
  - specialize (IH r' ltac:(simpl; lia)). lia.
  - specialize (IH (c' :: r') ltac:(simpl; lia)). simpl in IH. lia.
Qed.

(** A string without surrogate pairs is measured by its length. *)
Lemma char_count_no_surrogates (s : Js.jsstring) :
  Forall (fun c => is_high_surrogate c = false) s ->
  char_count s = Z.of_nat (length s).
Proof.
  induction 1 as [|c r Hc _ IH]; [done|].
  destruct r as [|c' r']; [done|].
  change (char_count (c :: c' :: r')) with
    (if is_high_surrogate c && is_low_surrogate c'
     then 1 + char_count r' else 1 + char_count (c' :: r')).
  rewrite Hc, IH. cbn [andb length]. lia.
Qed.

Lemma check_name_spec (v : option Js.jsstring) :
  forallb (fun r => check_rule r (from_option VString VUndefined v))
    (rules f_categoryNameZh) = true
  <-> exists s, v = Some s /\ s <> [] /\ char_count s <= 50.
Proof.
  destruct v as [[|c s]|]; simpl.
  - split; [done | by intros (? & ? & ? & ?); simplify_eq].
  - unfold check_rule, in_range, maxLength. simpl.
    rewrite andb_true_r. rewrite Z.leb_le.
    split; [intros H; eexists; split_and!; done | by intros (? & ? & ? & ?); simplify_eq].
  - split; [done | by intros (? & ? & ?)].
Qed.

Lemma check_sortOrder_spec (v : option Z) :
  forallb (fun r => check_rule r (from_option VNumber VUndefined v))
    (rules f_sortOrder) = true
  <-> exists n, v = Some n /\ 0 < n.
Proof.
  destruct v as [n|]; simpl.
  - unfold check_rule, in_range. simpl. rewrite !andb_true_r. rewrite Z.leb_le.
    split; [intros H; exists n; split; [done | lia] | intros (? & ? & ?); simplify_eq; lia].
  - split; [done | by intros (? & ? & ?)].
Qed.

Lemma check_status_spec (v : option Status) :
  forallb (fun r => check_rule r
             (from_option (fun st => VString (status_label st)) VUndefined v))
    (rules f_status) = true
  <-> is_Some v.
Proof.
  destruct v as [[]|]; simpl; split; try done; try by intros [? ?].
Qed.

(** The rules accept exactly the drafts that are [acceptable]. *)
Lemma validate_spec o : validate o = true <-> acceptable o.
Proof.
  unfold validate, acceptable. cbn [forallb]. rewrite !andb_true_iff.
  unfold check_field, field_value.
  change (rules f_categoryNameEn) with (rules f_categoryNameZh).
  rewrite !check_name_spec, check_sortOrder_spec, check_status_spec.
  tauto.
Qed.

Lemma validate_empty_name o : o.(categoryNameZh) = Some [] -> validate o = false.
Proof.
  intros H. apply not_true_is_false. rewrite validate_spec.
  intros ((zh & Hzh & Hne & _) & _). congruence.
Qed.

(** *** Submitting *)

Lemma resetForm_form d : (resetForm d).(form) = d.(form).
Proof. unfold resetForm. by destruct d.(formRef). Qed.

Lemma resetForm_dom d : dom (resetForm d).(store) = dom (d.(store)).
Proof.
  unfold resetForm. destruct d.(formRef); [|done]. simpl. apply dom_alter_L.
Qed.

Lemma resetForm_frame d l : l <> d.(form) -> deref (resetForm d) l = deref d l.
Proof.
  intros Hl. unfold resetForm, deref. destruct d.(formRef); [|done]. simpl.
  by apply lookup_alter_ne.
Qed.

Lemma handleConfirm_rejected d :
  (forall o, draft d = Some o -> is_Some d.(formRef) -> validate o = false) ->
  handleConfirm d = (d, []).
Proof.
  intros H. unfold handleConfirm. fold (draft d).
  destruct d.(formRef) as [init|]; [|done].
  destruct (draft d) as [o|]; [|done].
  by rewrite (H o eq_refl ltac:(eauto)).
Qed.

Lemma handleConfirm_accepted d o :
  draft d = Some o -> is_Some d.(formRef) -> validate o = true ->
  let l := fresh (dom (d.(store))) in
  handleConfirm d
  = (resetForm {| store := <[l := o]> d.(store); form := d.(form);
                  formRef := d.(formRef) |},
     [confirm l; update_visible false]).
Proof.
  intros Ho [init Hinit] Hv l. unfold handleConfirm. fold (draft d).
  by rewrite Hinit, Ho, Hv.
Qed.

Lemma handleConfirm_emitted d l :
  confirm l ∈ (handleConfirm d).2 ->
  exists o, draft d = Some o /\ validate o = true /\ is_Some d.(formRef).
Proof.
  unfold handleConfirm. fold (draft d).
  destruct d.(formRef) as [init|]; [|by intros ?%elem_of_nil].
  destruct (draft d) as [o|]; [|by intros ?%elem_of_nil].
  destruct (validate o) eqn:Hv; [|by intros ?%elem_of_nil].
  intros _. exists o. eauto.
Qed.

Lemma handleConfirm_payload d o :
  draft d = Some o -> is_Some d.(formRef) -> validate o = true ->
  exists l,
    (handleConfirm d).2 = [confirm l; update_visible false] /\
    (l ∉ dom (d.(store))) /\
    (handleConfirm d).1.(form) = d.(form) /\
    deref (handleConfirm d).1 l = Some o.
Proof.
  intros Ho Href Hv. rewrite (handleConfirm_accepted d o Ho Href Hv). simpl.
  eexists. split_and!; [done | apply is_fresh | by rewrite resetForm_form |].
  rewrite resetForm_frame; simpl.
  - unfold deref. simpl. apply lookup_insert_eq.
  - intros E. apply (is_fresh (dom (d.(store)))). rewrite E.
    apply elem_of_dom. unfold draft, deref in Ho. eauto.
Qed.

(** C7: submitting checks the draft against the rules, which accept it
    exactly when both names are present, not empty and at most 50
    characters long, the sort order is present and above 0, and the status
    is present.  A rejected draft (one with an empty [categoryNameZh], for
    instance) emits nothing and changes nothing; [confirm] is emitted only
    for an accepted draft, carries a copy of it, and is followed by the
    closing [update:visible]. *)
Theorem submit_emits_only_valid_draft d o :
  draft d = Some o ->
  (validate o = true <-> acceptable o) /\
  (o.(categoryNameZh) = Some [] -> handleConfirm d = (d, [])) /\
  (validate o = false -> handleConfirm d = (d, [])) /\
  (forall l, confirm l ∈ (handleConfirm d).2 ->
     validate o = true /\ is_Some d.(formRef)) /\
  (validate o = true -> is_Some d.(formRef) ->
     exists l,
       (handleConfirm d).2 = [confirm l; update_visible false] /\
       (l ∉ dom (d.(store))) /\
       deref (handleConfirm d).1 l = Some o).
Proof.
  intros Ho.
  assert (validate o = false -> handleConfirm d = (d, [])) as Hrej.
  { intros Hv. apply handleConfirm_rejected. intros o' Ho' _. congruence. }
  split_and!.
  - apply validate_spec.
  - intros Hzh. by apply Hrej, validate_empty_name.
  - done.
  - intros l Hl. destruct (handleConfirm_emitted d l Hl) as (o' & Ho' & Hv & Href).
    split; [congruence | done].
  - intros Hv Href.
    destruct (handleConfirm_payload d o Ho Href Hv) as (l & H1 & H2 & _ & H3).
    by exists l.
Qed.

Lemma submit_emits_only_valid_draft_witness :
  (exists l,
     (handleConfirm
        (mount_form (set_visible false open_edit_1 (page_with record_5)))).2
     = [confirm l; update_visible false])
  /\ handleConfirm
       (handleInput (input_categoryNameZh [])
          (mount_form (set_visible false open_edit_1 (page_with record_5))))
     = (handleInput (input_categoryNameZh [])
          (mount_form (set_visible false open_edit_1 (page_with record_5))), []).
Proof.
  split.
  - destruct (submit_emits_only_valid_draft
                (mount_form (set_visible false open_edit_1 (page_with record_5)))
                record_5 ltac:(by vm_compute))
      as (_ & _ & _ & _ & H).
    destruct (H ltac:(by vm_compute) ltac:(by vm_compute; eauto)) as (l & Hl & _).
    by exists l.
  - destruct (submit_emits_only_valid_draft
                (handleInput (input_categoryNameZh [])
                   (mount_form (set_visible false open_edit_1 (page_with record_5))))
                (write_field (input_categoryNameZh []) record_5)
                ltac:(by vm_compute))
      as (_ & H & _).
    apply H. reflexivity.
Defined.

(** *** The draft stays the dialog's own *)

Lemma set_visible_cases oldVal props d :
  set_visible oldVal props d = d \/
  exists o, set_visible oldVal props d = assign_form o d.
Proof.
  unfold set_visible, watch_visible. destruct (bool_decide _); [by left|].
  destruct props.(visible); [right; apply initForm_assigns | by left].
Qed.

Lemma payloads_nil : payloads [] = ∅.
Proof. done. Qed.

(** A fresh reference, remembered only as a reference. *)
Ltac forget_fresh :=
  repeat match goal with
         | |- context [fresh ?X] =>
             let l := fresh "l" in set (l := fresh X) in *; clearbody l
         end.

(** Objects other than the draft are left alone by every operation. *)
Lemma run_frame op d l :
  l ∈ dom (d.(store)) -> l <> d.(form) -> deref (run op d).1 l = deref d l.
Proof.
  intros Hdom Hl. destruct op; simpl.
  - destruct (set_visible_cases oldVal props d) as [->|[o ->]]; [done|].
    by apply assign_form_frame.
  - unfold mount_form. destruct (deref d d.(form)); [|done].
    unfold deref. simpl. by apply lookup_insert_ne.
  - done.
  - unfold handleInput, deref. simpl. by apply lookup_alter_ne.
  - unfold handleConfirm. destruct d.(formRef); [|done].
    destruct (deref d d.(form)) as [o|]; [|done].
    destruct (validate o); [|done]. simpl.
    rewrite resetForm_frame by done. unfold deref. simpl.
    apply lookup_insert_ne. intros <-. by apply (is_fresh (dom (d.(store)))).
  - by apply resetForm_frame.
  - by apply resetForm_frame.
Qed.

Lemma run_private known op d :
  private known d -> private (known ∪ payloads (run op d).2) (run op d).1.
Proof.
  intros (Hform & Hpriv & Hsub). destruct op; simpl; rewrite ?payloads_nil.
  - destruct (set_visible_cases oldVal props d) as [->|[o ->]].
    + unfold private. set_solver.
    + pose proof (assign_form_fresh o d). unfold private.
      rewrite assign_form_dom. set_solver.
  - unfold mount_form.
    destruct (deref d d.(form)); unfold private; simpl;
      rewrite ?dom_insert_L; set_solver.
  - unfold private, handleOpened. set_solver.
  - unfold private, handleInput. simpl. rewrite dom_alter_L. set_solver.
  - unfold handleConfirm. destruct d.(formRef) eqn:Href;
      [|simpl; rewrite payloads_nil; unfold private; set_solver].
    destruct (deref d d.(form)) as [o|];
      [|simpl; rewrite payloads_nil; unfold private; set_solver].
    destruct (validate o); [|simpl; rewrite payloads_nil; unfold private; set_solver].
    pose proof (is_fresh (dom (d.(store)))) as Hfresh.
    unfold private, payloads, resetForm. simpl.
    rewrite dom_alter_L, dom_insert_L.
    forget_fresh. set_solver.
  - unfold private, payloads. simpl. rewrite resetForm_form, resetForm_dom. set_solver.
  - unfold private. simpl. rewrite resetForm_form, resetForm_dom. set_solver.
Qed.

Lemma reachable_private known d : reachable known d -> private known d.
Proof.
  induction 1 as [h | known d op _ IH _ | known d l o _ IH Hl | known d o _ IH].
  - unfold setup. pose proof (is_fresh (dom h)) as Hfresh.
    unfold private, assign_form. simpl. rewrite dom_insert_L.
    forget_fresh. set_solver.
  - by apply run_private.
  - destruct IH as (Hform & Hpriv & Hsub).
    unfold private, caller_write. simpl. rewrite dom_insert_L. set_solver.
  - destruct IH as (Hform & Hpriv & Hsub).
    pose proof (is_fresh (dom (d.(store)))) as Hfresh.
    unfold private, caller_new, caller_write. simpl. rewrite dom_insert_L.
    forget_fresh. set_solver.
Qed.

(** The draft installed on opening is read off the [formData] object (if
    any) and nothing else. *)
Lemma set_visible_draft_reads oldVal props d1 d2 :
  props.(formData) ≫= deref d1 = props.(formData) ≫= deref d2 ->
  draft d1 = draft d2 ->
  draft (set_visible oldVal props d1) = draft (set_visible oldVal props d2).
Proof.
  intros Hfd Hdraft. unfold set_visible, watch_visible.
  destruct (bool_decide _); [done|]. destruct props.(visible); [|done].
  unfold initForm. rewrite Hfd.
  destruct (if isEditMode props then _ else _); by rewrite !assign_form_draft.
Qed.

(** C9: in every state the dialog can be in, whatever happens to it
    (opening, typing, mounting, submitting, cancelling, closing), every
    object the caller has a reference to, the [formData] object included,
    is left as it was.  The payload of [confirm] is an object that did not
    exist before, equal field by field to the draft that was submitted (the
    fields are numbers, strings and a status, so nothing further can be
    shared), and distinct from the draft object; overwriting it changes
    neither the draft nor the draft a later opening installs. *)
Theorem dialog_keeps_its_draft_private known d op :
  reachable known d -> props_from known op ->
  let d' := (run op d).1 in
  (forall l, l ∈ known -> deref d' l = deref d l) /\
  (forall o, op = op_confirm -> draft d = Some o -> validate o = true ->
     is_Some d.(formRef) ->
     exists l, (run op d).2 = [confirm l; update_visible false]) /\
  (forall l, confirm l ∈ (run op d).2 ->
     (l ∉ known) /\ (l ∉ dom (d.(store))) /\ l <> d.(form) /\ l <> d'.(form) /\
     (exists o, draft d = Some o /\ validate o = true /\ deref d' l = Some o) /\
     forall o',
       draft (caller_write l o' d') = draft d' /\
       forall oldVal props,
         props.(formData) <> Some l ->
         draft (set_visible oldVal props (caller_write l o' d'))
         = draft (set_visible oldVal props d')).
Proof.
  intros Hreach Hprops d'.
  pose proof (reachable_private _ _ Hreach) as (Hform & Hpriv & Hsub).
  split_and!.
  - intros l Hl. apply run_frame; [set_solver|]. intros ->. done.
  - intros o -> Ho Hv Href.
    destruct (handleConfirm_payload d o Ho Href Hv) as (l & Hl & _). by exists l.
  - intros l Hl.
    assert (op = op_confirm) as ->.
    { destruct op; simpl in Hl; try by apply elem_of_nil in Hl.
      - done.
      - set_solver.
      - set_solver. }
    subst d'. simpl in *.
    destruct (handleConfirm_emitted d l Hl) as (o & Ho & Hv & Href).
    destruct (handleConfirm_payload d o Ho Href Hv)
      as (l' & Hevs & Hfresh & Hsame & Hcopy).
    rewrite Hevs in Hl. assert (l = l') as <- by set_solver.
    assert (l <> d.(form)) as Hne.
    { intros ->. done. }
    assert (forall o', draft (caller_write l o' (handleConfirm d).1)
                       = draft (handleConfirm d).1) as Hdraft.
    { intros o'. unfold draft, caller_write, deref. simpl.
      apply lookup_insert_ne. by rewrite Hsame. }
    split_and!; [set_solver | done | done | by rewrite Hsame | by exists o |].
    intros o'. split; [done|].
    intros oldVal props Hfd. apply set_visible_draft_reads; [|done].
    destruct props.(formData) as [l2|]; [|done]. simpl.
    unfold caller_write, deref. simpl. apply lookup_insert_ne. congruence.
Qed.

Lemma dialog_keeps_its_draft_private_witness :
  let d := mount_form (set_visible false open_edit_1 (page_with record_5)) in
  deref (handleConfirm d).1 1%positive = deref d 1%positive /\
  exists l,
    (handleConfirm d).2 = [confirm l; update_visible false] /\
    l <> d.(form) /\
    draft (caller_write l defaultForm (handleConfirm d).1) = draft (handleConfirm d).1.
Proof.
  intros d.
  assert (reachable (dom ({[ 1%positive := record_5 ]} : gmap loc EditFormData) ∪ ∅ ∪ ∅) d)
    as Hreach.
  { apply (reachable_run _ _ op_mount); [|exact I].
    apply (reachable_run _ _ (op_set_visible false open_edit_1)).
    - apply reachable_setup.
    - intros l [= <-]. rewrite dom_singleton_L. by apply elem_of_singleton. }
  destruct (dialog_keeps_its_draft_private _ d op_confirm Hreach I)
    as (Hframe & _ & Hconfirm).
  split.
  - apply Hframe. rewrite dom_singleton_L.
    apply elem_of_union_l, elem_of_union_l. by apply elem_of_singleton.
  - exists (fresh (dom (d.(store)))).
    destruct (Hconfirm (fresh (dom (d.(store)))) ltac:(by left))
      as (_ & _ & Hne & _ & _ & Hwrite).
    split; [reflexivity|]. split; [exact Hne|]. exact (proj1 (Hwrite defaultForm)).
Defined.

End DialogFacts.

(** * Further properties of the handlers *)

(** ** Pages *)

Section SliceFacts.

Context {A : Type}.
Implicit Types (l : list A).

Lemma slice_length l start stop :
  0 <= start <= stop ->
  Z.of_nat (length (Js.slice l start stop))
  = Z.min stop (Z.of_nat (length l)) - Z.min start (Z.of_nat (length l)).
Proof.
  intros H. unfold Js.slice, Js.rel_index.
  destruct (start <? 0) eqn:E1; [lia|]. destruct (stop <? 0) eqn:E2; [lia|].
  rewrite length_take, length_drop. lia.
Qed.

(** Element [j] of a slice is element [start + j] of the array, as long as
    that is before [stop]. *)
Lemma slice_lookup l start stop (j : nat) :
  0 <= start <= stop ->
  Js.slice l start stop !! j
  = if decide (start + Z.of_nat j < stop) then l !! (Z.to_nat start + j)%nat else None.
Proof.
  intros H. unfold Js.slice, Js.rel_index.
  destruct (start <? 0) eqn:E1; [lia|]. destruct (stop <? 0) eqn:E2; [lia|].
  rewrite lookup_take, lookup_drop.
  destruct (Z.le_gt_cases start (Z.of_nat (length l))) as [Hle|Hgt].
  - rewrite (Z.min_l start) by done.
    repeat case_decide; try done; try lia;
      try (apply lookup_ge_None; lia); symmetry; apply lookup_ge_None; lia.
  - rewrite (Z.min_r start), (Z.min_r stop) by lia.
    repeat case_decide; try done; try lia;
      try (apply lookup_ge_None; lia); symmetry; apply lookup_ge_None; lia.
Qed.

End SliceFacts.

Section TableExtras.

Import DataTable.
Import EditDialog(Enabled, Disabled, add, edit).
Implicit Types (s : State) (row : TableItem) (data : EditDialog.EditFormData).

(** X1: for a positive page size and a page number from 1 on, the rows
    shown are the rows of the collection from position
    [(currentPage - 1) * pageSize] on, in order, at most [pageSize] of them
    and as many as the collection has from there. *)
Theorem page_shows_its_rows s :
  0 < s.(pagination).(pageSize) -> 1 <= s.(pagination).(currentPage) ->
  let ps := s.(pagination).(pageSize) in
  let start := (s.(pagination).(currentPage) - 1) * ps in
  (forall j : nat,
     paginatedData s !! j
     = if decide (Z.of_nat j < ps)
       then s.(tableData) !! (Z.to_nat start + j)%nat else None) /\
  Z.of_nat (length (paginatedData s)) = Z.max 0 (Z.min ps (total s - start)).
Proof.
  intros Hps Hcp ps start. unfold paginatedData. fold ps. fold start.
  assert (0 <= start) by (unfold start; nia).
  split.
  - intros j. rewrite slice_lookup by lia.
    repeat case_decide; try done; lia.
  - rewrite slice_length by lia. unfold total. lia.
Qed.

Lemma page_shows_its_rows_witness :
  paginatedData (handleCurrentChange 3 initial) !! 1%nat = initial.(tableData) !! 5%nat.
Proof.
  exact (proj1 (page_shows_its_rows (handleCurrentChange 3 initial) eq_refl
                  ltac:(by vm_compute)) 1%nat).
Defined.

(** X2: for a positive page size, the row at position [i] of the collection
    is shown on page [i / pageSize + 1], at position [i mod pageSize], and
    that page is one of the pages [1 .. ceil(total / pageSize)]. *)
Theorem every_row_is_on_its_page s (i : nat) x :
  0 < s.(pagination).(pageSize) -> s.(tableData) !! i = Some x ->
  let ps := s.(pagination).(pageSize) in
  let page := Z.of_nat i / ps + 1 in
  paginatedData (handleCurrentChange page s) !! Z.to_nat (Z.of_nat i mod ps) = Some x /\
  1 <= page <= totalPages s.
Proof.
  intros Hps Hx ps page.
  pose proof (Z.div_mod (Z.of_nat i) ps ltac:(lia)) as Hdm.
  pose proof (Z.mod_pos_bound (Z.of_nat i) ps Hps) as Hmod.
  pose proof (Z.div_pos (Z.of_nat i) ps ltac:(lia) Hps) as Hdiv.
  pose proof (lookup_lt_Some _ _ _ Hx) as Hlt.
  split.
  - unfold paginatedData. simpl. fold ps.
    rewrite slice_lookup by (unfold page; nia).
    rewrite decide_True by (unfold page; lia).
    rewrite <- Hx. f_equal. unfold page. nia.
  - split; [unfold page; lia|].
    apply le_total_pages; [done|]. fold ps. unfold total, page. nia.
Qed.

Lemma every_row_is_on_its_page_witness :
  paginatedData (handleCurrentChange 3 initial) !! 1%nat = Some (mock 2699 4 Enabled).
Proof.
  exact (proj1 (every_row_is_on_its_page initial 5 (mock 2699 4 Enabled)
                  eq_refl eq_refl)).
Defined.

(** On whole page numbers: the page shown has at most [pageSize] rows, and
    it has a row exactly when the page number is at most the page count. *)
Lemma page_length_and_emptiness s :
  0 < s.(pagination).(pageSize) -> 1 <= s.(pagination).(currentPage) ->
  Z.of_nat (length (paginatedData s)) <= s.(pagination).(pageSize) /\
  (paginatedData s <> [] <-> s.(pagination).(currentPage) <= totalPages s).
Proof.
  intros Hps Hcp.
  assert (Z.of_nat (length (paginatedData s))
          = Z.max 0 (Z.min s.(pagination).(pageSize)
               (total s - (s.(pagination).(currentPage) - 1) * s.(pagination).(pageSize))))
    as Hlen.
  { unfold paginatedData. rewrite slice_length by nia. unfold total. nia. }
  split; [lia|].
  rewrite le_total_pages by done.
  destruct (paginatedData s) as [|y r]; simpl in Hlen; split; intros H; try done; lia.
Qed.

(** ** Staying on a page *)

Lemma step_current_page_from_one a s :
  0 < s.(pagination).(pageSize) -> 1 <= s.(pagination).(currentPage) ->
  from_page_one a -> 1 <= (step a s).1.(pagination).(currentPage).
Proof.
  intros Hps Hcp Hone. destruct a; simpl; try done.
  - unfold handleDelete. destruct confirmed; [|done].
    destruct (-1 <? _); [|done].
    destruct (_ =? 0) eqn:E0; simpl; [|done].
    destruct (1 <? _) eqn:E1; simpl; [lia | done].
  - unfold handleDialogConfirm, modeHandlers_add, modeHandlers_edit.
    destruct s.(dialogMode).
    + simpl. apply le_total_pages; [done|]. unfold total. simpl.
      rewrite length_app. simpl. lia.
    + destruct (EditDialog.id data); [|done]. by destruct (-1 <? _).
  - unfold handleJump. destruct (1 <=? _) eqn:E1; simpl; [|done].
    destruct (_ <=? totalPages s); simpl; [lia | done].
Qed.

Lemma step_on_a_page a s :
  on_a_page s -> offered a s -> from_page_one a -> on_a_page (step a s).1.
Proof.
  intros (Hps & Hcp & Hinv) Hoff Hone. split_and!.
  - by apply step_page_size.
  - by apply step_current_page_from_one.
  - by apply step_page_in_range.
Qed.

Lemma on_a_page_shows_rows s :
  on_a_page s -> s.(tableData) <> [] -> paginatedData s <> [].
Proof.
  intros (Hps & Hcp & Hinv) Hne.
  apply page_length_and_emptiness; [done | done |].
  apply Hinv. unfold total. destruct s.(tableData); [done | simpl; lia].
Qed.

(** ** Ids *)

Lemma handleDelete_rows confirmed row s :
  (handleDelete confirmed row s).1.(tableData) = s.(tableData) \/
  exists i x,
    s.(tableData) !! i = Some x /\ x.(id) = row.(id) /\
    (handleDelete confirmed row s).1.(tableData) = delete i s.(tableData).
Proof.
  unfold handleDelete. destruct confirmed; [|by left].
  destruct (-1 <? Js.findIndex _ _) eqn:Hidx; [|by left]. right.
  match type of Hidx with
  | (-1 <? ?r) = true =>
      destruct (findIndex_hit _ _ r eq_refl ltac:(lia)) as (n & x & Hn & Hl & Hx & _)
  end.
  exists n, x. split; [done|]. split; [simpl in Hx; lia|].
  unfold Js.splice1. rewrite Hn, Nat2Z.id. by destruct (_ && _).
Qed.

Lemma edit_commit_ids data s :
  (fun item => item.(id)) <$> (modeHandlers_edit data s).1.(tableData)
  = (fun item => item.(id)) <$> s.(tableData).
Proof.
  unfold modeHandlers_edit. destruct (EditDialog.id data) as [k|]; [|done].
  destruct (-1 <? Js.findIndex _ _) eqn:Hidx; [|done].
  match type of Hidx with
  | (-1 <? ?r) = true =>
      destruct (findIndex_hit _ _ r eq_refl ltac:(lia)) as (n & x & Hn & Hl & Hx & _)
  end.
  simpl. rewrite Hn, Nat2Z.id, list_fmap_insert. apply list_insert_id.
  rewrite list_lookup_fmap, Hl. simpl in *. f_equal. lia.
Qed.

Lemma add_commit_ids data s :
  (fun item => item.(id)) <$> (modeHandlers_add data s).1.(tableData)
  = ((fun item => item.(id)) <$> s.(tableData))
      ++ [Js.add (Js.max0 ((fun item => item.(id)) <$> s.(tableData))) 1].
Proof. unfold modeHandlers_add. simpl. by rewrite fmap_app. Qed.

Lemma max0_ids_le s b :
  0 <= b -> (forall x, x ∈ s.(tableData) -> x.(id) <= b) ->
  0 <= Js.max0 ((fun item => item.(id)) <$> s.(tableData)) <= b.
Proof.
  intros Hb H. split; [apply max0_nonneg|]. apply max0_le; [done|].
  intros k (x & -> & Hx)%list_elem_of_fmap. by apply H.
Qed.

Lemma step_unique_ids a s : safe_ids s -> unique_ids s -> unique_ids (step a s).1.
Proof.
  intros Hsafe Hu. unfold unique_ids in *. destruct a; simpl; try done.
  - destruct (handleDelete_rows confirmed row s) as [->|(i & x & _ & _ & ->)]; [done|].
    rewrite list_fmap_delete. eapply sublist_NoDup; [exact Hu|]. apply sublist_delete.
  - unfold handleDialogConfirm. destruct s.(dialogMode).
    + rewrite add_commit_ids. apply NoDup_app. split_and!; [done | | apply NoDup_singleton].
      intros k Hk ->%list_elem_of_singleton.
      pose proof (max0_upper _ _ Hk) as Hle.
      rewrite add_1_safe in Hle; [lia|].
      apply max0_ids_le; [by vm_compute | exact Hsafe].
    + by rewrite edit_commit_ids.
  - unfold handleJump. by destruct (_ && _).
Qed.

(** An operation raises the greatest id by at most one. *)
Lemma step_ids_bound a s b :
  0 <= b <= Js.MAX_SAFE_INTEGER ->
  (forall x, x ∈ s.(tableData) -> x.(id) <= b) ->
  forall x, x ∈ (step a s).1.(tableData) -> x.(id) <= b + 1.
Proof.
  intros Hb Hs.
  assert (forall l : list TableItem,
            (fun item => item.(id)) <$> l = (fun item => item.(id)) <$> s.(tableData) ->
            forall x, x ∈ l -> x.(id) <= b + 1) as Hsame.
  { intros l Hl x Hx.
    apply (list_elem_of_fmap_2 (fun item => item.(id))) in Hx. rewrite Hl in Hx.
    apply list_elem_of_fmap in Hx as (y & -> & Hy). specialize (Hs y Hy). lia. }
  destruct a; simpl; try (intros x Hx; specialize (Hs x Hx); lia).
  - destruct (handleDelete_rows confirmed row s) as [->|(i & y & _ & _ & ->)];
      intros x Hx; [|apply list_elem_of_delete_inv in Hx]; specialize (Hs x Hx); lia.
  - unfold handleDialogConfirm. destruct s.(dialogMode).
    + unfold modeHandlers_add. simpl. intros x [Hx| ->%list_elem_of_singleton]%elem_of_app.
      * specialize (Hs x Hx). lia.
      * simpl. pose proof (max0_ids_le s b ltac:(lia) Hs).
        rewrite add_1_safe; lia.
    + apply Hsame, edit_commit_ids.
  - unfold handleJump. destruct (_ && _); intros x Hx; specialize (Hs x Hx); lia.
Qed.

Lemma reached_ids n s :
  reached n s -> 2699 + Z.of_nat n <= Js.MAX_SAFE_INTEGER ->
  unique_ids s /\ forall x, x ∈ s.(tableData) -> x.(id) <= 2699 + Z.of_nat n.
Proof.
  induction 1 as [|n a s _ IH]; intros Hn.
  - split.
    + unfold unique_ids. simpl. apply NoDup_ListNoDup.
      repeat (constructor; [simpl; intros H; repeat destruct H as [H|H]; done|]).
      constructor.
    + intros x Hx. simpl in Hx.
      repeat (apply elem_of_cons in Hx as [->|Hx]; [by vm_compute|]).
      by apply elem_of_nil in Hx.
  - destruct IH as [Hu Hb]; [lia|]. split.
    + apply step_unique_ids; [|done]. intros x Hx. specialize (Hb x Hx). lia.
    + intros x Hx. apply (step_ids_bound a s (2699 + Z.of_nat n)) in Hx; [lia | lia | done].
Qed.

(** X5: the ids of the mock data are pairwise distinct and at most 2699.
    From a state whose ids are at most [Number.MAX_SAFE_INTEGER], every
    operation keeps the ids pairwise distinct (a new row gets an id above
    all others, an edit keeps the ids, a delete removes one).  An operation
    raises the greatest id by at most one, so the ids are pairwise distinct,
    and at most [2699 + n], in every state the table reaches within [n]
    operations, as long as that bound is at most
    [Number.MAX_SAFE_INTEGER]. *)
Theorem ids_stay_unique :
  (unique_ids initial /\ forall x, x ∈ initial.(tableData) -> x.(id) <= 2699) /\
  (forall a s, safe_ids s -> unique_ids s -> unique_ids (step a s).1) /\
  (forall n s,
     reached n s -> 2699 + Z.of_nat n <= Js.MAX_SAFE_INTEGER ->
     unique_ids s /\ forall x, x ∈ s.(tableData) -> x.(id) <= 2699 + Z.of_nat n).
Proof.
  split; [|split].
  - apply (reached_ids 0 initial reached_0). by vm_compute.
  - intros a s. apply step_unique_ids.
  - intros n s. apply reached_ids.
Qed.

Lemma ids_stay_unique_witness :
  unique_ids (step (dialog_confirm EditDialog.defaultForm)
                (step click_add initial).1).1.
Proof.
  destruct ids_stay_unique as (_ & _ & Hreached).
  refine (proj1 (Hreached 2%nat _ _ _)); [|by vm_compute].
  apply reached_S, reached_S, reached_0.
Defined.

(** X18: the bound matters.  When the greatest id is [2 ^ 53], adding 1 to
    it is lost to rounding: an add commit appends a row under the id
    [2 ^ 53] again, and the ids are no longer pairwise distinct. *)
Theorem add_at_2_53_repeats_the_id data s :
  s.(dialogMode) = add ->
  Js.max0 ((fun item => item.(id)) <$> s.(tableData)) = 2 ^ 53 ->
  let s' := (handleDialogConfirm data s).1 in
  exists row,
    s'.(tableData) = s.(tableData) ++ [row] /\
    row.(id) = 2 ^ 53 /\
    (exists x, x ∈ s.(tableData) /\ x.(id) = row.(id)) /\
    ~ unique_ids s'.
Proof.
  intros Hmode Hmax s'. subst s'. unfold handleDialogConfirm. rewrite Hmode.
  assert (exists x, x ∈ s.(tableData) /\ x.(id) = 2 ^ 53) as (x & Hx & Hid).
  { destruct (max0_attained ((fun item => item.(id)) <$> s.(tableData))) as [H0|Hin].
    - rewrite Hmax in H0. by vm_compute in H0.
    - rewrite Hmax in Hin. apply list_elem_of_fmap in Hin as (x & E & Hx). eauto. }
  eexists. split_and!.
  - unfold modeHandlers_add. simpl. reflexivity.
  - simpl. rewrite Hmax. apply add_1_at_2_53.
  - exists x. split; [done|]. simpl. rewrite Hmax, add_1_at_2_53. done.
  - unfold unique_ids. rewrite add_commit_ids, Hmax, add_1_at_2_53.
    intros (_ & Hdisj & _)%NoDup_app. apply (Hdisj (2 ^ 53)); [|by left].
    rewrite <- Hid. by apply (list_elem_of_fmap_2 (fun item => item.(id))).
Qed.

Lemma add_at_2_53_repeats_the_id_witness :
  exists row,
    (handleDialogConfirm EditDialog.defaultForm
       (set_tableData [mock (2 ^ 53) 1 Enabled] initial)).1.(tableData)
    = [mock (2 ^ 53) 1 Enabled; row] /\ row.(id) = 2 ^ 53.
Proof.
  destruct (add_at_2_53_repeats_the_id EditDialog.defaultForm
              (set_tableData [mock (2 ^ 53) 1 Enabled] initial) eq_refl eq_refl)
    as (row & H1 & H2 & _).
  exists row. split; [exact H1 | exact H2].
Defined.

Lemma handleDelete_found row s (i : nat) :
  Js.findIndex (fun item => item.(id) =? row.(id)) s.(tableData) = Z.of_nat i ->
  (handleDelete true row s).1.(tableData) = delete i s.(tableData).
Proof.
  intros Hi. unfold handleDelete. rewrite Hi.
  replace (-1 <? Z.of_nat i) with true by lia.
  unfold Js.splice1. rewrite Nat2Z.id. by destruct (_ && _).
Qed.

Lemma handleDelete_unique row s :
  unique_ids s ->
  (exists x, x ∈ s.(tableData) /\ x.(id) = row.(id)) ->
  forall y, y ∈ (handleDelete true row s).1.(tableData)
            <-> y ∈ s.(tableData) /\ y.(id) <> row.(id).
Proof.
  intros Hu Hex y.
  destruct (find_row_by_id _ _ Hex) as (i & x & Hi & Hx & Hid & _).
  rewrite (handleDelete_found _ _ _ Hi).
  unfold unique_ids in Hu.
  rewrite <- (take_drop_middle _ _ _ Hx) in Hu at 1.
  rewrite fmap_app, fmap_cons in Hu.
  apply NoDup_app in Hu as (_ & Hleft & [Hright _]%NoDup_cons).
  rewrite delete_take_drop, elem_of_app.
  rewrite <- (take_drop_middle _ _ _ Hx) at 3.
  rewrite elem_of_app, elem_of_cons. split.
  - intros [Hy|Hy].
    + split; [by left|]. intros E. apply (Hleft y.(id)).
      * by apply (list_elem_of_fmap_2 (fun item => item.(id))).
      * rewrite E, <- Hid. by left.
    + split; [by right; right|]. intros E. apply Hright. rewrite Hid, <- E.
      by apply (list_elem_of_fmap_2 (fun item => item.(id))).
  - intros [[Hy|[->|Hy]] Hne]; [by left | done | by right].
Qed.

(** X6: when ids are pairwise distinct, a confirmed delete of a row whose id
    is in the collection leaves exactly the rows with another id, in the
    order they had, one row fewer. *)
Theorem delete_removes_the_row row s :
  unique_ids s ->
  (exists x, x ∈ s.(tableData) /\ x.(id) = row.(id)) ->
  let rest := (handleDelete true row s).1.(tableData) in
  rest `sublist_of` s.(tableData) /\
  S (length rest) = length s.(tableData) /\
  (forall y, y ∈ rest <-> y ∈ s.(tableData) /\ y.(id) <> row.(id)).
Proof.
  intros Hu Hex rest. split_and!; [| | by apply handleDelete_unique].
  - destruct (handleDelete_rows true row s) as [E|(i & x & _ & _ & E)];
      subst rest; rewrite E; [done | apply sublist_delete].
  - destruct (find_row_by_id _ _ Hex) as (i & x & Hi & Hx & _).
    subst rest. rewrite (handleDelete_found _ _ _ Hi).
    pose proof (lookup_lt_Some _ _ _ Hx) as Hlt.
    rewrite length_delete by eauto. lia.
Qed.

Lemma delete_removes_the_row_witness :
  S (length (handleDelete true (mock 2632 3 Disabled) initial).1.(tableData))
  = length initial.(tableData)
  /\ (mock 2630 6 Enabled ∈ (handleDelete true (mock 2632 3 Disabled) initial).1.(tableData)
      <-> mock 2630 6 Enabled ∈ initial.(tableData)
          /\ (mock 2630 6 Enabled).(id) <> 2632).
Proof.
  destruct (delete_removes_the_row (mock 2632 3 Disabled) initial) as (_ & Hlen & Hin).
  - unfold unique_ids. simpl. apply NoDup_ListNoDup.
    repeat (constructor; [simpl; intros H; repeat destruct H as [H|H]; done|]).
    constructor.
  - exists (mock 2632 3 Disabled). split; [|done]. set_solver.
  - split; [exact Hlen | exact (Hin (mock 2630 6 Enabled))].
Defined.

Lemma spread_row_back row : spread_with_id (spread_row row) row.(id) = row.
Proof. by destruct row. Qed.

(** X7: when ids are pairwise distinct, opening a row of the collection for
    editing and committing the copy unchanged leaves the state as the
    opening left it (the collection as it was), with the success message. *)
Theorem edit_unchanged_is_identity row s :
  unique_ids s -> row ∈ s.(tableData) ->
  handleDialogConfirm (spread_row row) (handleEdit row s)
  = (handleEdit row s, [success EditDone]).
Proof.
  intros Hu Hrow.
  destruct (find_row_by_id s.(tableData) row.(id)) as (i & x & Hi & Hx & Hid & _);
    [by exists row|].
  assert (x = row) as ->.
  { apply list_elem_of_lookup in Hrow as [j Hj].
    assert (i = j) as ->; [|congruence].
    eapply NoDup_lookup; [exact Hu| |].
    - rewrite list_lookup_fmap, Hx. simpl. by rewrite Hid.
    - by rewrite list_lookup_fmap, Hj. }
  unfold handleDialogConfirm, modeHandlers_edit. simpl. rewrite Hi.
  replace (-1 <? Z.of_nat i) with true by lia.
  rewrite Nat2Z.id, spread_row_back. by rewrite list_insert_id.
Qed.

Lemma edit_unchanged_is_identity_witness :
  handleDialogConfirm (spread_row (mock 2630 6 Enabled))
    (handleEdit (mock 2630 6 Enabled) initial)
  = (handleEdit (mock 2630 6 Enabled) initial, [success EditDone]).
Proof.
  apply edit_unchanged_is_identity.
  - unfold unique_ids. simpl. apply NoDup_ListNoDup.
    repeat (constructor; [simpl; intros H; repeat destruct H as [H|H]; done|]).
    constructor.
  - simpl. set_solver.
Defined.

Lemma findIndex_snoc {A} (p : A -> bool) (l : list A) x :
  (forall y, y ∈ l -> p y = false) -> p x = true ->
  Js.findIndex p (l ++ [x]) = Z.of_nat (length l).
Proof.
  intros Hl Hx.
  assert (-1 < Js.findIndex p (l ++ [x])) as Hr.
  { apply (findIndex_exists p _ x); [|done]. apply elem_of_app. right. by left. }
  destruct (findIndex_hit _ _ _ eq_refl Hr) as (n & y & -> & Hn & Hy & _).
  apply lookup_snoc_Some in Hn as [[_ Hn]|[-> _]]; [|done].
  apply list_elem_of_lookup_2 in Hn. rewrite (Hl y Hn) in Hy. done.
Qed.

(** X8: while the ids are at most [Number.MAX_SAFE_INTEGER], committing an
    add and then deleting the row just added gives back the collection as
    it was; the current page and the jump input end on the last page of
    that collection, or on page 1 when it is empty; and the id of the
    deleted row is the one the next add would assign again. *)
Theorem add_then_delete_restores data s :
  s.(dialogMode) = add -> 0 < s.(pagination).(pageSize) -> safe_ids s ->
  let s1 := (handleDialogConfirm data s).1 in
  let new := spread_with_id data
               (Js.max0 ((fun item => item.(id)) <$> s.(tableData)) + 1) in
  let s2 := (handleDelete true new s1).1 in
  last s1.(tableData) = Some new /\
  s2.(tableData) = s.(tableData) /\
  s2.(pagination).(currentPage) = Z.max 1 (totalPages s) /\
  s2.(pagination).(jumpPage) = Z.max 1 (totalPages s) /\
  s2.(pagination).(pageSize) = s.(pagination).(pageSize) /\
  Js.add (Js.max0 ((fun item => item.(id)) <$> s2.(tableData))) 1 = new.(id).
Proof.
  intros Hmode Hps Hsafe s1 new s2. subst s1 s2.
  assert (Js.add (Js.max0 ((fun item => item.(id)) <$> s.(tableData))) 1
          = Js.max0 ((fun item => item.(id)) <$> s.(tableData)) + 1) as Hadd.
  { apply add_1_safe, max0_ids_le; [by vm_compute | exact Hsafe]. }
  unfold handleDialogConfirm. rewrite Hmode. unfold modeHandlers_add.
  rewrite Hadd. simpl. fold new.
  split; [by rewrite last_snoc|].
  unfold handleDelete. simpl.
  rewrite findIndex_snoc.
  2:{ intros y Hy. pose proof (max0_upper _ _ (list_elem_of_fmap_2
        (fun item => item.(id)) _ _ Hy)) as Hle. simpl in *. unfold new. simpl. lia. }
  2:{ simpl. lia. }
  assert ((-1 <? Z.of_nat (length s.(tableData))) = true) as ->
    by (apply Z.ltb_lt; lia).
  unfold Js.splice1. rewrite Nat2Z.id.
  replace (delete (length s.(tableData)) (s.(tableData) ++ [new])) with s.(tableData)
    by (by rewrite (delete_middle _ [] new), app_nil_r).
  set (s1 := set_tableData (s.(tableData) ++ [new]) s).
  assert (total s1 = total s + 1) as Htot.
  { unfold total, s1. simpl. rewrite length_app. simpl. lia. }
  pose proof (total_pages_bounds s1 Hps) as Hb1. simpl in Hb1.
  pose proof (total_pages_bounds s Hps) as Hb.
  pose proof (Zle_0_nat (length s.(tableData))) as Hn. fold (total s) in Hn.
  assert (1 <= totalPages s1) as Hc by nia.
  unfold paginatedData. simpl.
  pose proof (slice_length s.(tableData)
                ((totalPages s1 - 1) * s.(pagination).(pageSize))
                ((totalPages s1 - 1) * s.(pagination).(pageSize)
                 + s.(pagination).(pageSize)) ltac:(nia)) as Hlen.
  fold (total s) in Hlen.
  destruct (_ =? 0) eqn:E0; simpl.
  - destruct (1 <? totalPages s1) eqn:E1; simpl.
    + assert (totalPages s1 - 1 = totalPages s) as Heq.
      { apply ceil_div_unique; [done|]. fold (total s). nia. }
      split_and!; try done; lia.
    + assert (totalPages s1 = 1) as Heq by lia.
      assert (totalPages s <= 1).
      { apply Z.lt_succ_r. apply Z.nle_gt. intros H2.
        apply le_total_pages in H2; [|done]. nia. }
      split_and!; try done; lia.
  - assert (totalPages s1 = totalPages s) as Heq.
    { apply ceil_div_unique; [done|]. fold (total s). nia. }
    split_and!; try done; lia.
Qed.

Lemma add_then_delete_restores_witness :
  (handleDelete true (spread_with_id EditDialog.defaultForm 2700)
     (handleDialogConfirm EditDialog.defaultForm (handleAdd initial)).1).1.(tableData)
  = initial.(tableData).
Proof.
  refine (proj1 (proj2 (add_then_delete_restores EditDialog.defaultForm
                          (handleAdd initial) eq_refl eq_refl _))).
  intros x Hx. simpl in Hx.
  repeat (apply elem_of_cons in Hx as [->|Hx]; [by vm_compute|]).
  by apply elem_of_nil in Hx.
Defined.

(** X9: every operation shows at most one message, and the only one that is
    an error is the edit commit whose id is not in the collection, which
    changes nothing. *)
Theorem errors_come_from_missing_edit_target a s :
  (length (step a s).2 <= 1)%nat /\
  (forall t, error t ∈ (step a s).2 ->
     t = EditTargetMissing /\ (step a s).1 = s /\ s.(dialogMode) = edit /\
     exists data,
       a = dialog_confirm data /\
       forall x, x ∈ s.(tableData) -> Some x.(id) <> data.(EditDialog.id)).
Proof.
  destruct a; simpl; try (split; [lia | by intros t ?%elem_of_nil]).
  - unfold handleDelete. destruct confirmed; [|split; [simpl; lia | by intros t ?%elem_of_nil]].
    destruct (-1 <? _); [|split; [simpl; lia | by intros t ?%elem_of_nil]].
    destruct (_ && _); simpl; (split; [lia | by intros t [=]%list_elem_of_singleton]).
  - unfold handleDialogConfirm, modeHandlers_add, modeHandlers_edit.
    destruct s.(dialogMode) eqn:Hmode; simpl.
    + split; [lia | by intros t [=]%list_elem_of_singleton].
    + destruct (EditDialog.id data) as [k|] eqn:Hk.
      * destruct (-1 <? _) eqn:Hidx; simpl.
        -- split; [lia | by intros t [=]%list_elem_of_singleton].
        -- split; [lia|]. intros t [= ->]%list_elem_of_singleton.
           split_and!; try done. exists data. split; [done|].
           intros x Hx [= E]. rewrite Hk in E.
           assert (Js.findIndex (fun item => item.(id) =? k) s.(tableData) = -1) as Hm.
           { destruct (findIndex_from_range (fun item => item.(id) =? k)
                         s.(tableData) 0 _ eq_refl) as [?|?]; [done|].
             unfold Js.findIndex in Hidx. lia. }
           pose proof (proj1 (findIndex_miss _ _) Hm x Hx) as Hne. simpl in Hne.
           injection E as E. lia.
      * simpl. split; [lia|]. intros t [= ->]%list_elem_of_singleton.
        split_and!; try done. exists data. split; [done|].
        intros x _. by rewrite Hk.
Qed.

(** X10: after a change to a positive page size the table is on page 1 and
    shows the first [val] rows of the collection (all of them when there
    are fewer); the jump input keeps its value. *)
Theorem size_change_shows_first_rows val s :
  0 < val ->
  paginatedData (handleSizeChange val s) = take (Z.to_nat val) s.(tableData) /\
  (handleSizeChange val s).(pagination).(currentPage) = 1 /\
  (handleSizeChange val s).(pagination).(jumpPage) = s.(pagination).(jumpPage).
Proof.
  intros Hval. split; [|done].
  unfold paginatedData, handleSizeChange. cbn [pagination set_pagination
    currentPage pageSize tableData].
  replace ((1 - 1) * val) with 0 by lia.
  apply list_eq. intros j. rewrite slice_lookup by lia. rewrite lookup_take.
  repeat case_decide; try done; lia.
Qed.

Lemma size_change_shows_first_rows_witness :
  paginatedData (handleSizeChange 10 (handleCurrentChange 3 initial))
  = initial.(tableData).
Proof.
  exact (proj1 (size_change_shows_first_rows 10 (handleCurrentChange 3 initial) eq_refl)).
Defined.

Lemma handleDelete_dialogMode confirmed row s :
  (handleDelete confirmed row s).1.(dialogMode) = s.(dialogMode).
Proof.
  unfold handleDelete. destruct confirmed; [|done].
  destruct (-1 <? _); [|done]. by destruct (_ && _).
Qed.

(** X17: when ids are pairwise distinct and a row is deleted while it is
    open for editing, committing the edit finds no row: the error message
    is shown and the state stays as the delete left it. *)
Theorem edit_of_deleted_row_is_reported row s :
  unique_ids s -> row ∈ s.(tableData) ->
  let s1 := (handleDelete true row (handleEdit row s)).1 in
  s1.(dialogMode) = edit /\
  (forall x, x ∈ s1.(tableData) -> x.(id) <> row.(id)) /\
  handleDialogConfirm (spread_row row) s1 = (s1, [error EditTargetMissing]).
Proof.
  intros Hu Hrow s1.
  assert (s1.(dialogMode) = edit) as Hmode
    by (unfold s1; by rewrite handleDelete_dialogMode).
  assert (forall x, x ∈ s1.(tableData) -> x.(id) <> row.(id)) as Hgone.
  { intros x Hx.
    apply (handleDelete_unique row (handleEdit row s) Hu) in Hx as [_ ?];
      [done | by exists row]. }
  split_and!; [done | done |].
  unfold handleDialogConfirm, modeHandlers_edit. rewrite Hmode. simpl.
  by rewrite find_row_by_id_none.
Qed.

Lemma edit_of_deleted_row_is_reported_witness :
  (handleDialogConfirm (spread_row (mock 2630 6 Enabled))
     (handleDelete true (mock 2630 6 Enabled)
        (handleEdit (mock 2630 6 Enabled) initial)).1).2
  = [error EditTargetMissing].
Proof.
  rewrite (proj2 (proj2 (edit_of_deleted_row_is_reported (mock 2630 6 Enabled) initial
            ltac:(unfold unique_ids; simpl; apply NoDup_ListNoDup;
                  repeat (constructor; [simpl; intros H; repeat destruct H as [H|H]; done|]);
                  constructor)
            ltac:(simpl; set_solver)))).
  reflexivity.
Defined.

End TableExtras.

(** ** Numbers *)

Section NumberFacts.

Lemma to_double_exact z : Z.abs z <= 2 ^ 53 -> Js.to_double z = z.
Proof.
  intros Hz. unfold Js.to_double.
  destruct (Z.abs z <=? 2 ^ 53) eqn:E; [done|]. apply Z.leb_gt in E. lia.
Qed.

(** Rounding a whole number. *)
Lemma round_whole q z :
  (q == inject_Z z)%Q -> Number.round q = inject_Z (Js.to_double z).
Proof.
  intros Hq. unfold Number.round.
  by rewrite (Qred_complete _ _ Hq), inject_Z_Qred.
Qed.

Lemma sub_of_Z a b :
  Number.sub (Number.of_Z a) (Number.of_Z b) = Number.of_Z (Js.to_double (a - b)).
Proof. apply round_whole. unfold Qeq, Number.of_Z. simpl. lia. Qed.

Lemma mul_of_Z a b :
  Number.mul (Number.of_Z a) (Number.of_Z b) = Number.of_Z (Js.to_double (a * b)).
Proof. apply round_whole. unfold Qeq, Number.of_Z. simpl. lia. Qed.

Lemma add_of_Z a b :
  Number.add (Number.of_Z a) (Number.of_Z b) = Number.of_Z (Js.to_double (a + b)).
Proof. apply round_whole. unfold Qeq, Number.of_Z. simpl. lia. Qed.

Lemma leb_of_Z a b : Number.leb (Number.of_Z a) (Number.of_Z b) = (a <=? b).
Proof. unfold Number.leb, Qle_bool, Number.of_Z. simpl. by rewrite !Z.mul_1_r. Qed.

Lemma ltb_of_Z a b : Number.ltb (Number.of_Z a) (Number.of_Z b) = (a <? b).
Proof.
  unfold Number.ltb. fold (Number.leb (Number.of_Z b) (Number.of_Z a)).
  rewrite leb_of_Z. symmetry. apply Z.ltb_antisym.
Qed.

Lemma to_integer_of_Z z : Number.to_integer (Number.of_Z z) = z.
Proof. unfold Number.to_integer, Number.of_Z. simpl. apply Z.quot_1_r. Qed.

Lemma of_Z_le a b : (Number.of_Z a <= Number.of_Z b)%Q <-> a <= b.
Proof. unfold Number.of_Z. by rewrite <- Zle_Qle. Qed.

(** Two sums and products as JavaScript has them: [0.1 + 0.2] is
    [0.30000000000000004], and [0.7 * 10] is [7] although the double [0.7]
    is below seven tenths. *)
Example add_rounds :
  Number.add (3602879701896397 # 36028797018963968)
             (3602879701896397 # 18014398509481984)
  = 1351079888211149 # 4503599627370496.
Proof. by vm_compute. Qed.

Example mul_rounds :
  Number.mul (3152519739159347 # 4503599627370496) (Number.of_Z 10)
  = Number.of_Z 7.
Proof. by vm_compute. Qed.

End NumberFacts.

(** ** Page numbers with a fraction *)

Section FractionalFacts.

Import DataTable.
Import EditDialog(Enabled, Disabled, add, edit).
Implicit Types (s : State) (f : Fractional.State).

(** The page of a whole page number. *)
Lemma paginatedData_whole f z :
  f.(Fractional.pagination).(Fractional.currentPage) = Number.of_Z z ->
  0 < f.(Fractional.pagination).(Fractional.pageSize) -> 1 <= z ->
  z * f.(Fractional.pagination).(Fractional.pageSize) <= Js.MAX_SAFE_INTEGER ->
  Fractional.paginatedData f
  = Js.slice f.(Fractional.tableData)
      ((z - 1) * f.(Fractional.pagination).(Fractional.pageSize))
      ((z - 1) * f.(Fractional.pagination).(Fractional.pageSize)
       + f.(Fractional.pagination).(Fractional.pageSize)).
Proof.
  intros Hcp Hps Hz Hsafe. unfold Js.MAX_SAFE_INTEGER in Hsafe.
  unfold Fractional.paginatedData. rewrite Hcp.
  rewrite sub_of_Z, to_double_exact by nia.
  rewrite mul_of_Z, to_double_exact by nia.
  rewrite add_of_Z, to_double_exact by nia.
  by rewrite !to_integer_of_Z.
Qed.

Lemma embed_paginatedData s :
  0 < s.(pagination).(pageSize) -> 1 <= s.(pagination).(currentPage) ->
  s.(pagination).(currentPage) * s.(pagination).(pageSize) <= Js.MAX_SAFE_INTEGER ->
  Fractional.paginatedData (Fractional.embed s) = paginatedData s.
Proof.
  intros Hps Hcp Hsafe.
  by rewrite (paginatedData_whole _ s.(pagination).(currentPage)).
Qed.

(** On whole page numbers the handlers of the two modules do the same. *)
Lemma embed_step a s :
  0 < s.(pagination).(pageSize) -> 1 <= s.(pagination).(currentPage) ->
  s.(pagination).(currentPage) * s.(pagination).(pageSize) <= Js.MAX_SAFE_INTEGER ->
  Fractional.step (Fractional.embed_action a) (Fractional.embed s)
  = (Fractional.embed (step a s).1, (step a s).2).
Proof.
  intros Hps Hcp Hsafe. destruct a; simpl; try done.
  - unfold Fractional.handleDelete, handleDelete. destruct confirmed; [|done].
    change (Fractional.tableData (Fractional.embed s)) with (tableData s).
    destruct (-1 <? _); [|done].
    change (Fractional.set_tableData ?l (Fractional.embed s))
      with (Fractional.embed (set_tableData l s)).
    rewrite (embed_paginatedData (set_tableData _ s) Hps Hcp Hsafe).
    change (Fractional.currentPage (Fractional.pagination (Fractional.embed (set_tableData ?l s))))
      with (Number.of_Z s.(pagination).(currentPage)).
    rewrite ltb_of_Z.
    change (currentPage (pagination (set_tableData ?l s))) with (currentPage (pagination s)).
    destruct (_ && _); [|done].
    rewrite sub_of_Z, to_double_exact; [done|].
    unfold Js.MAX_SAFE_INTEGER in Hsafe. nia.
  - unfold Fractional.handleDialogConfirm, handleDialogConfirm.
    change (Fractional.dialogMode (Fractional.embed s)) with (dialogMode s).
    destruct s.(dialogMode); [done|].
    unfold Fractional.modeHandlers_edit, modeHandlers_edit.
    destruct (EditDialog.id data); [|done].
    change (Fractional.tableData (Fractional.embed s)) with (tableData s).
    by destruct (-1 <? _).
  - unfold Fractional.handleJump, handleJump.
    change (Fractional.jumpPage (Fractional.pagination (Fractional.embed s)))
      with (Number.of_Z s.(pagination).(jumpPage)).
    rewrite !leb_of_Z.
    change (Fractional.totalPages (Fractional.embed s)) with (totalPages s).
    by destruct (_ && _).
Qed.

Lemma embed_on_a_page s : Fractional.on_a_page (Fractional.embed s) <-> on_a_page s.
Proof.
  unfold Fractional.on_a_page, on_a_page, Fractional.page_in_range, page_in_range.
  simpl. rewrite of_Z_le.
  change (Fractional.total (Fractional.embed s)) with (total s).
  change (Fractional.totalPages (Fractional.embed s)) with (totalPages s).
  by rewrite of_Z_le.
Qed.

(** C1: the jump input takes 3.5, which [handleJump] accepts as it lies
    between 1 and the 4 pages of the mock data; the page then shown is rows
    6 and 7.  Deleting these two rows, one after the other, leaves 6 rows,
    hence 3 pages, and a page that still shows one row, so that
    [handleDelete] does not step back: the current page is 3.5, above the
    page count. *)
Theorem fractional_jump_leaves_page_range :
  let s1 := (Fractional.step Fractional.jump_enter
               (Fractional.step (Fractional.input_jump (7 # 2))
                  Fractional.initial).1).1 in
  let s2 := (Fractional.step
               (Fractional.click_delete (mock 2699 4 Enabled) true) s1).1 in
  let s3 := (Fractional.step
               (Fractional.click_delete (mock 2369 9 Enabled) true) s2).1 in
  Fractional.page_in_range Fractional.initial /\
  Fractional.totalPages Fractional.initial = 4 /\
  s1.(Fractional.pagination).(Fractional.currentPage) = 7 # 2 /\
  Fractional.paginatedData s1 = [mock 2699 4 Enabled; mock 2369 9 Enabled] /\
  Fractional.paginatedData s2 = [mock 2369 9 Enabled; mock 2586 11 Enabled] /\
  Fractional.paginatedData s3 = [mock 2586 11 Enabled] /\
  Fractional.total s3 = 6 /\
  Fractional.totalPages s3 = 3 /\
  s3.(Fractional.pagination).(Fractional.pageSize) = 2 /\
  s3.(Fractional.pagination).(Fractional.currentPage) = 7 # 2 /\
  ~ Fractional.page_in_range s3.
Proof.
  split_and!; try by vm_compute.
  intros H. specialize (H ltac:(by vm_compute)). vm_compute in H. by apply H.
Qed.

(** X3: for a positive page size and a whole page number from 1 on (page
    number times page size being a safe integer), the page shown has at
    most [pageSize] rows, and it has a row exactly when the page number is
    at most [ceil(total / pageSize)]. *)
Theorem whole_page_is_empty_iff_past_the_last f z :
  f.(Fractional.pagination).(Fractional.currentPage) = Number.of_Z z ->
  0 < f.(Fractional.pagination).(Fractional.pageSize) -> 1 <= z ->
  z * f.(Fractional.pagination).(Fractional.pageSize) <= Js.MAX_SAFE_INTEGER ->
  Z.of_nat (length (Fractional.paginatedData f))
    <= f.(Fractional.pagination).(Fractional.pageSize) /\
  (Fractional.paginatedData f <> [] <-> z <= Fractional.totalPages f) /\
  (z <= Fractional.totalPages f <->
   (f.(Fractional.pagination).(Fractional.currentPage)
    <= Number.of_Z (Fractional.totalPages f))%Q).
Proof.
  intros Hcp Hps Hz Hsafe.
  pose (s := {| tableData := f.(Fractional.tableData);
                dialogVisible := f.(Fractional.dialogVisible);
                currentEditData := f.(Fractional.currentEditData);
                pagination :=
                  {| currentPage := z;
                     pageSize := f.(Fractional.pagination).(Fractional.pageSize);
                     jumpPage := 0 |};
                dialogMode := f.(Fractional.dialogMode) |}).
  assert (Fractional.paginatedData f = paginatedData s) as ->
    by (by rewrite (paginatedData_whole f z)).
  destruct (page_length_and_emptiness s Hps Hz) as [Hlen Hiff].
  split_and!; [done | done |].
  rewrite Hcp. by rewrite of_Z_le.
Qed.

Lemma whole_page_is_empty_iff_past_the_last_witness :
  Fractional.paginatedData
    (Fractional.handleCurrentChange (Number.of_Z 5) Fractional.initial) = [] /\
  Fractional.paginatedData
    (Fractional.handleCurrentChange (Number.of_Z 4) Fractional.initial) <> [].
Proof.
  split.
  - destruct (Fractional.paginatedData
                (Fractional.handleCurrentChange (Number.of_Z 5) Fractional.initial))
      eqn:E; [done|].
    exfalso.
    pose proof (proj1 (proj2 (whole_page_is_empty_iff_past_the_last
                         (Fractional.handleCurrentChange (Number.of_Z 5)
                            Fractional.initial) 5
                         eq_refl eq_refl ltac:(lia) ltac:(by vm_compute))))
      as [H _].
    rewrite E in H. specialize (H ltac:(done)). vm_compute in H. by apply H.
  - apply (proj1 (proj2 (whole_page_is_empty_iff_past_the_last
                    (Fractional.handleCurrentChange (Number.of_Z 4)
                       Fractional.initial) 4
                    eq_refl eq_refl ltac:(lia) ltac:(by vm_compute)))).
    by vm_compute.
Defined.

(** X4: as long as the page numbers are whole (what the pager announces,
    between 1 and the page count, and what is typed into the jump input)
    the table starts on a page of its collection and stays on one: every
    operation leads from a state on a page to a state on a page, with whole
    page numbers again, and a state on a page shows at least one row unless
    the collection is empty.  (The page number times the page size is taken
    to be a safe integer.) *)
Theorem table_stays_on_a_page_of_whole_number :
  Fractional.on_a_page Fractional.initial /\
  (forall a s,
     on_a_page s -> offered a s -> from_page_one a ->
     s.(pagination).(currentPage) * s.(pagination).(pageSize)
       <= Js.MAX_SAFE_INTEGER ->
     (Fractional.step (Fractional.embed_action a) (Fractional.embed s)).1
       = Fractional.embed (step a s).1 /\
     Fractional.on_a_page
       (Fractional.step (Fractional.embed_action a) (Fractional.embed s)).1) /\
  (forall s,
     on_a_page s ->
     s.(pagination).(currentPage) * s.(pagination).(pageSize)
       <= Js.MAX_SAFE_INTEGER ->
     s.(tableData) <> [] ->
     Fractional.paginatedData (Fractional.embed s) <> []).
Proof.
  split_and!.
  - apply embed_on_a_page. split_and!; [done | done | intros _; by vm_compute].
  - intros a s Hon Hoff Hone Hsafe.
    pose proof Hon as (Hps & Hcp & _).
    rewrite embed_step by done. cbn [fst]. split; [done|].
    apply embed_on_a_page. by apply step_on_a_page.
  - intros s Hon Hsafe Hne. pose proof Hon as (Hps & Hcp & _).
    rewrite embed_paginatedData by done. by apply on_a_page_shows_rows.
Qed.

Lemma table_stays_on_a_page_of_whole_number_witness :
  Fractional.on_a_page
    (Fractional.step (Fractional.click_delete (mock 2586 11 Enabled) true)
       (Fractional.step (Fractional.current_change (Number.of_Z 4))
          Fractional.initial).1).1.
Proof.
  destruct table_stays_on_a_page_of_whole_number as (_ & Hstep & _).
  destruct (Hstep (current_change 4) initial) as [E1 H1].
  { split_and!; [done | done | intros _; by vm_compute]. }
  { intros _. by vm_compute. }
  { by vm_compute. }
  { by vm_compute. }
  change (Fractional.step (Fractional.current_change (Number.of_Z 4))
            Fractional.initial).1
    with (Fractional.step (Fractional.embed_action (current_change 4))
            (Fractional.embed initial)).1.
  rewrite E1.
  apply (Hstep (click_delete (mock 2586 11 Enabled) true) (step (current_change 4) initial).1).
  - split_and!; [done | by vm_compute | intros _; by vm_compute].
  - exact I.
  - exact I.
  - by vm_compute.
Defined.

(** X19: [handleJump] does not ask for a whole number: the number in the
    jump input becomes the current page exactly when it lies between 1 and
    the page count, with or without a fraction, and nothing changes
    otherwise. *)
Theorem jump_accepts_any_number_in_range f :
  let q := f.(Fractional.pagination).(Fractional.jumpPage) in
  ((Number.of_Z 1 <= q)%Q /\ (q <= Number.of_Z (Fractional.totalPages f))%Q ->
   Fractional.handleJump f
   = Fractional.set_pagination
       {| Fractional.currentPage := q;
          Fractional.pageSize := f.(Fractional.pagination).(Fractional.pageSize);
          Fractional.jumpPage := q |} f) /\
  (~ ((Number.of_Z 1 <= q)%Q /\ (q <= Number.of_Z (Fractional.totalPages f))%Q) ->
   Fractional.handleJump f = f).
Proof.
  intros q. subst q. unfold Fractional.handleJump, Number.leb.
  destruct (Qle_bool _ _) eqn:E1; [destruct (Qle_bool _ (Number.of_Z _)) eqn:E2|];
    simpl.
  - split; [done|]. intros H. exfalso. apply H. by rewrite <- !Qle_bool_iff.
  - split; [|done]. intros [_ H]. apply Qle_bool_iff in H. congruence.
  - split; [|done]. intros [H _]. apply Qle_bool_iff in H. congruence.
Qed.

Lemma jump_accepts_any_number_in_range_witness :
  (Fractional.handleJump (Fractional.inputJumpPage (7 # 2) Fractional.initial))
    .(Fractional.pagination).(Fractional.currentPage) = 7 # 2 /\
  Fractional.handleJump (Fractional.inputJumpPage (9 # 2) Fractional.initial)
  = Fractional.inputJumpPage (9 # 2) Fractional.initial.
Proof.
  split.
  - rewrite (proj1 (jump_accepts_any_number_in_range
                      (Fractional.inputJumpPage (7 # 2) Fractional.initial)));
      [reflexivity|].
    split; by vm_compute.
  - apply (proj2 (jump_accepts_any_number_in_range
                    (Fractional.inputJumpPage (9 # 2) Fractional.initial))).
    intros [_ H]. by vm_compute in H.
Defined.

End FractionalFacts.

(** ** The dialog, from opening to closing *)

Section DialogExtras.

Import EditDialog.
Implicit Types (d : Dialog) (o : EditFormData) (l : loc) (props : Props).

Lemma mount_form_form d : (mount_form d).(form) = d.(form).
Proof. unfold mount_form. by destruct (deref d d.(form)). Qed.

Lemma mount_form_mounted d : is_Some (draft d) -> is_Some (mount_form d).(formRef).
Proof.
  intros [o Ho]. unfold mount_form. unfold draft in Ho. rewrite Ho. simpl. eauto.
Qed.

Lemma open_draft props d :
  props.(visible) = true ->
  draft (set_visible false props d)
  = Some (match (if isEditMode props then props.(formData) ≫= deref d else None) with
          | Some fd =>
              {| id := fd.(id);
                 categoryNameZh := Some (or_else fd.(categoryNameZh) []);
                 categoryNameEn := Some (or_else fd.(categoryNameEn) []);
                 sortOrder := Some (or_else fd.(sortOrder) 1);
                 status := Some (or_else fd.(status) Enabled) |}
          | None => defaultForm
          end).
Proof.
  intros Hv. unfold set_visible, watch_visible. rewrite Hv. simpl.
  unfold initForm. destruct (if isEditMode props then _ else _);
    apply assign_form_draft.
Qed.

(** X11: a dialog opened in add mode, or without [formData], cannot be
    submitted as it is: submitting right after the opening emits nothing and
    changes nothing, whatever the dialog held before. *)
Theorem untouched_add_dialog_is_rejected props d :
  props.(visible) = true ->
  props.(mode) = add \/ props.(formData) = None ->
  let d1 := mount_form (set_visible false props d) in
  draft d1 = Some defaultForm /\ handleConfirm d1 = (d1, []).
Proof.
  intros Hv Hadd d1.
  assert (draft d1 = Some defaultForm) as Hd.
  { unfold d1. rewrite mount_form_draft, open_draft by done.
    unfold isEditMode. destruct Hadd as [-> | ->]; [done|].
    by destruct (bool_decide _). }
  split; [done|].
  apply handleConfirm_rejected. intros o Ho _.
  rewrite Hd in Ho. by injection Ho as <-.
Qed.

Lemma untouched_add_dialog_is_rejected_witness :
  handleConfirm (mount_form (set_visible false open_add (page_with record_5)))
  = (mount_form (set_visible false open_add (page_with record_5)), []).
Proof.
  exact (proj2 (untouched_add_dialog_is_rejected open_add (page_with record_5)
                  eq_refl (or_introl eq_refl))).
Defined.

Lemma acceptable_is_kept_by_initForm o :
  acceptable o ->
  {| id := o.(id);
     categoryNameZh := Some (or_else o.(categoryNameZh) []);
     categoryNameEn := Some (or_else o.(categoryNameEn) []);
     sortOrder := Some (or_else o.(sortOrder) 1);
     status := Some (or_else o.(status) Enabled) |} = o.
Proof.
  intros ((zh & Hzh & Hzne & _) & (en & Hen & Hene & _) & (n & Hn & Hpos) & [st Hst]).
  destruct o as [i z e so stt]. simpl in *. subst.
  rewrite !or_else_string, or_else_number, or_else_status. simpl.
  destruct (n =? 0) eqn:E; [lia | done].
Qed.

Lemma acceptable_number_input o : acceptable o -> acceptable (number_input o).
Proof.
  intros (Hzh & Hen & (n & Hn & Hpos) & Hst). split_and!; [done | done | | done].
  exists (clamp n). split; [by simpl; rewrite Hn|].
  pose proof (clamp_range n). unfold sortOrder_min in *. lia.
Qed.

(** X12: opening the dialog in edit mode on a record that satisfies the
    rules and submitting without touching it emits a new object equal to
    the record as the inputs hold it, that is with a sort order above 9999
    brought down to 9999 by the number input: for a record whose sort order
    is at most 9999 the object emitted equals the record.  The record
    itself is still as it was. *)
Theorem open_then_submit_returns_the_shown_record props d l r :
  props.(visible) = true -> props.(mode) = edit -> props.(formData) = Some l ->
  deref d l = Some r -> acceptable r ->
  let d1 := mount_form (set_visible false props d) in
  exists l',
    (handleConfirm d1).2 = [confirm l'; update_visible false] /\
    l' <> l /\
    deref (handleConfirm d1).1 l' = Some (number_input r) /\
    ((forall n, r.(sortOrder) = Some n -> n <= sortOrder_max) ->
       deref (handleConfirm d1).1 l' = Some r) /\
    deref (handleConfirm d1).1 l = Some r.
Proof.
  intros Hv Hmode Hfd Hl Hacc d1.
  assert (draft d1 = Some (number_input r)) as Hd.
  { unfold d1. rewrite mount_form_draft, open_draft by done.
    unfold isEditMode. rewrite Hmode, Hfd. simpl. rewrite Hl.
    by rewrite acceptable_is_kept_by_initForm. }
  assert (is_Some d1.(formRef)) as Href.
  { apply mount_form_mounted. rewrite open_draft by done. eauto. }
  assert (deref d1 l = Some r /\ l <> d1.(form)) as [Hl1 Hne].
  { unfold d1. rewrite <- Hl.
    assert (l ∈ dom (d.(store))) as Hdom by (apply elem_of_dom; eauto).
    unfold set_visible, watch_visible. rewrite Hv. simpl.
    destruct (initForm_assigns props d) as [o ->].
    pose proof (assign_form_frame o d l Hdom) as Hframe.
    pose proof (assign_form_fresh o d) as Hfresh.
    assert (l <> (assign_form o d).(form)) as Hne by (by intros ->).
    split; [|by rewrite mount_form_form].
    change (deref (run op_mount (assign_form o d)).1 l = deref d l).
    rewrite run_frame; [done | by rewrite assign_form_dom; set_solver | done]. }
  destruct (handleConfirm_payload d1 (number_input r) Hd Href
              (proj2 (validate_spec _) (acceptable_number_input r Hacc)))
    as (l' & Hevs & Hfresh & _ & Hcopy).
  exists l'. split_and!; [done | | done | |].
  - intros ->. apply Hfresh. apply elem_of_dom. unfold deref in Hl1. eauto.
  - intros Hmax. rewrite Hcopy. f_equal. apply number_input_inside.
    intros n Hn. destruct Hacc as (_ & _ & (n' & Hn' & Hpos) & _).
    specialize (Hmax n Hn). unfold sortOrder_min. split; [|done].
    rewrite Hn in Hn'. injection Hn' as <-. lia.
  - change (deref (run op_confirm d1).1 l = Some r). rewrite run_frame; [done | | done].
    apply elem_of_dom. unfold deref in Hl1. eauto.
Qed.

Lemma open_then_submit_returns_the_shown_record_witness :
  (exists l',
     (handleConfirm (mount_form
        (set_visible false open_edit_1 (page_with record_5)))).2
       = [confirm l'; update_visible false] /\
     deref (handleConfirm (mount_form
        (set_visible false open_edit_1 (page_with record_5)))).1 l'
       = Some record_5) /\
  (exists l',
     (handleConfirm (mount_form
        (set_visible false open_edit_1 (page_with record_5_oversized)))).2
       = [confirm l'; update_visible false] /\
     deref (handleConfirm (mount_form
        (set_visible false open_edit_1 (page_with record_5_oversized)))).1 l'
       = Some {| id := Some 5; categoryNameZh := Some (Js.of_ascii "A");
                 categoryNameEn := Some (Js.of_ascii "B");
                 sortOrder := Some 9999; status := Some Enabled |}).
Proof.
  split.
  - destruct (open_then_submit_returns_the_shown_record open_edit_1
                (page_with record_5) 1%positive record_5
                eq_refl eq_refl eq_refl eq_refl
                ltac:(apply validate_spec; reflexivity))
      as (l' & H1 & _ & _ & H2 & _).
    exists l'. split; [exact H1 | apply H2; by intros n [= <-]].
  - destruct (open_then_submit_returns_the_shown_record open_edit_1
                (page_with record_5_oversized) 1%positive record_5_oversized
                eq_refl eq_refl eq_refl eq_refl
                ltac:(apply validate_spec; reflexivity))
      as (l' & H1 & _ & H2 & _).
    exists l'. split; [exact H1 | exact H2].
Defined.

Lemma type_all_shape inputs d :
  (type_all inputs d).(form) = d.(form) /\
  (type_all inputs d).(formRef) = d.(formRef) /\
  (forall o, draft d = Some o ->
     exists o', draft (type_all inputs d) = Some o' /\ o'.(id) = o.(id)).
Proof.
  revert d. induction inputs as [|i inputs IH]; intros d; simpl.
  - split_and!; eauto.
  - destruct (IH (handleInput i d)) as (Hform & Href & Hdraft).
    split_and!; [by rewrite Hform | by rewrite Href |].
    intros o Ho.
    assert (draft (handleInput i d) = Some (write_field i o)) as Hw.
    { unfold draft, deref, handleInput in *. simpl.
      by rewrite lookup_alter_eq, Ho. }
    destruct (Hdraft _ Hw) as (o' & Ho' & Hid). exists o'. split; [done|].
    rewrite Hid. by destruct i.
Qed.

(** X13: cancelling or closing a mounted dialog throws away what was typed:
    whatever inputs preceded it, the draft is left with the field values
    the form recorded when it was mounted (and the id it had), and the
    events are the closing [update:visible], after [cancel] for a cancel;
    no [confirm] is emitted. *)
Theorem closing_discards_what_was_typed op inputs d o init :
  closes op -> draft d = Some o -> d.(formRef) = Some init ->
  let d' := (run op (type_all inputs d)).1 in
  draft d' = Some (resetFields init o) /\
  d'.(form) = d.(form) /\
  (run op (type_all inputs d)).2
  = match op with
    | op_cancel => [cancel; update_visible false]
    | _ => [update_visible false]
    end.
Proof.
  intros Hop Ho Href d'. subst d'.
  destruct (type_all_shape inputs d) as (Hform & Href' & Hdraft).
  destruct (Hdraft o Ho) as (o' & Ho' & Hid).
  assert (draft (resetForm (type_all inputs d)) = Some (resetFields init o)) as Hr.
  { unfold resetForm, draft, deref in *. rewrite Href', Href. simpl.
    rewrite lookup_alter_eq, Ho'. simpl. unfold resetFields. by rewrite Hid. }
  destruct op; try done; simpl; (split_and!; [done | by rewrite resetForm_form | done]).
Qed.

Lemma closing_discards_what_was_typed_witness :
  draft (handleCancel
           (type_all [input_categoryNameZh []; input_sortOrder None]
              (mount_form (set_visible false open_edit_1 (page_with record_5))))).1
  = Some record_5.
Proof.
  exact (proj1 (closing_discards_what_was_typed op_cancel
                  [input_categoryNameZh []; input_sortOrder None]
                  (mount_form (set_visible false open_edit_1 (page_with record_5)))
                  record_5 record_5 I eq_refl eq_refl)).
Defined.

(** *** The character counters *)

Lemma char_count_le_length (s : Js.jsstring) : char_count s <= Z.of_nat (length s).
Proof.
  induction s as [s IH] using (induction_ltof1 _ (@length N)); unfold ltof in IH.
  destruct s as [|c [|c' r']]; [simpl; lia | simpl; lia |].
  change (char_count (c :: c' :: r')) with
    (if is_high_surrogate c && is_low_surrogate c'
     then 1 + char_count r' else 1 + char_count (c' :: r')).
  destruct (is_high_surrogate c && is_low_surrogate c').
  - specialize (IH r' ltac:(simpl; lia)). simpl length. lia.
  - specialize (IH (c' :: r') ltac:(simpl; lia)). simpl length in *. lia.
Qed.

Lemma name_rules_spec o (v : option Js.jsstring) f :
  f = f_categoryNameZh \/ f = f_categoryNameEn ->
  field_value f o = from_option VString VUndefined v ->
  check_field f o = true <-> exists s, v = Some s /\ s <> [] /\ char_count s <= 50.
Proof.
  intros Hf Hv. unfold check_field. rewrite Hv.
  destruct Hf as [-> | ->]; apply check_name_spec.
Qed.

Lemma counter_agrees_with_rules f o s :
  f = f_categoryNameZh \/ f = f_categoryNameEn ->
  field_value f o = VString s -> counter_agrees f o s.
Proof.
  intros Hf Hv.
  pose proof (char_count_le_length s) as Hle.
  assert (check_field f o = true
          <-> exists s', Some s = Some s' /\ s' <> [] /\ char_count s' <= 50) as Hspec.
  { by apply name_rules_spec. }
  unfold counter_agrees, maxLength. split_and!.
  - done.
  - intros Hne Hlen. apply Hspec. exists s. split_and!; [done | done | lia].
  - intros Hno. rewrite Hspec, <- (char_count_no_surrogates s Hno). split.
    + intros (s' & [= <-] & Hne & Hc). done.
    + intros [Hne Hc]. by exists s.
Qed.

(** X14: the counter next to each name shows the length of the name in
    code units, which is never less than the length the [max] rule
    measures: a non-empty name whose counter is at most 50 passes the rules
    of its field, and for a name without surrogate pairs the rules pass
    exactly when the name is not empty and the counter is at most 50. *)
Theorem counter_bounds_the_validated_length d o :
  draft d = Some o ->
  (forall s, o.(categoryNameZh) = Some s ->
     zhCharCount d = Some (Z.of_nat (length s)) /\
     counter_agrees f_categoryNameZh o s) /\
  (forall s, o.(categoryNameEn) = Some s ->
     enCharCount d = Some (Z.of_nat (length s)) /\
     counter_agrees f_categoryNameEn o s).
Proof.
  intros Hd. split; intros s Hs.
  - split; [unfold zhCharCount; rewrite Hd; simpl; by rewrite Hs|].
    apply counter_agrees_with_rules; [by left | simpl; by rewrite Hs].
  - split; [unfold enCharCount; rewrite Hd; simpl; by rewrite Hs|].
    apply counter_agrees_with_rules; [by right | simpl; by rewrite Hs].
Qed.

Lemma counter_bounds_the_validated_length_witness :
  zhCharCount (set_visible false open_edit_1 (page_with record_5)) = Some 1 /\
  check_field f_categoryNameZh record_5 = true.
Proof.
  destruct (proj1 (counter_bounds_the_validated_length
                     (set_visible false open_edit_1 (page_with record_5))
                     record_5 eq_refl) (Js.of_ascii "A") eq_refl)
    as (Hcount & _ & Hpass & _).
  split; [exact Hcount|]. apply Hpass; [done | by vm_compute].
Defined.

(** *** What the dialog holds and emits *)

Lemma write_field_present i o :
  names_and_status_present o -> names_and_status_present (write_field i o).
Proof. intros (? & ? & ?). destruct i; split_and!; simpl; eauto. Qed.

Lemma resetFields_present init o :
  names_and_status_present init -> names_and_status_present (resetFields init o).
Proof. by intros (? & ? & ?). Qed.

Lemma initForm_present props d o :
  draft (initForm props d) = Some o -> names_and_status_present o.
Proof.
  unfold initForm. destruct (if isEditMode props then _ else _);
    rewrite assign_form_draft; intros [= <-]; split_and!; simpl; eauto.
Qed.

Lemma resetForm_well_kept d : well_kept d -> well_kept (resetForm d).
Proof.
  intros [(o & Ho & Hp) Href]. unfold resetForm.
  destruct d.(formRef) as [init|] eqn:E; [|split; [eauto | by rewrite E]].
  split; [|done].
  exists (resetFields init o). split; [|by apply resetFields_present, Href].
  unfold draft, deref in *. simpl. by rewrite lookup_alter_eq, Ho.
Qed.

Lemma run_well_kept op d : well_kept d -> well_kept (run op d).1.
Proof.
  intros Hk. pose proof Hk as [(o & Ho & Hp) Href]. destruct op; simpl.
  - unfold set_visible, watch_visible. destruct (bool_decide _); [done|].
    destruct props.(visible); [|done].
    destruct (initForm_assigns props d) as [o' Ho'].
    split.
    + exists o'. pose proof (initForm_present props d o') as Hi.
      rewrite Ho' in *. rewrite assign_form_draft in *. eauto.
    + rewrite Ho'. simpl. done.
  - assert (names_and_status_present (number_input o)) as Hp' by done.
    unfold mount_form. fold (draft d). rewrite Ho.
    split.
    + exists (number_input o). split; [|done].
      unfold draft, deref. simpl. by rewrite lookup_insert_eq.
    + simpl. intros init [= <-]. destruct d.(formRef) eqn:E; simpl; eauto.
  - done.
  - split; [|done]. exists (write_field i o). split; [|by apply write_field_present].
    unfold draft, deref, handleInput in *. simpl. by rewrite lookup_alter_eq, Ho.
  - unfold handleConfirm. fold (draft d). rewrite Ho.
    destruct d.(formRef) as [init|] eqn:E; [|done].
    destruct (validate o); [|done]. simpl.
    apply resetForm_well_kept. split; [|done].
    exists o. split; [|done]. unfold draft, deref in *. simpl.
    rewrite lookup_insert_ne; [done|].
    intros Hl. apply (is_fresh (dom (d.(store)))). rewrite Hl.
    apply elem_of_dom. eauto.
  - by apply resetForm_well_kept.
  - by apply resetForm_well_kept.
Qed.

Lemma reachable_well_kept known d : reachable known d -> well_kept d.
Proof.
  induction 1 as [h | known d op _ IH _ | known d l o Hr IH Hl | known d o Hr IH].
  - split; [|done]. exists defaultForm. split; [apply assign_form_draft|].
    split_and!; simpl; eauto.
  - by apply run_well_kept.
  - destruct (reachable_private _ _ Hr) as (_ & Hpriv & _).
    destruct IH as [(o' & Ho' & Hp) Href]. split; [|done].
    exists o'. split; [|done]. unfold draft, deref, caller_write in *. simpl.
    rewrite lookup_insert_ne; [done | by intros ->].
  - destruct (reachable_private _ _ Hr) as (Hform & _ & _).
    destruct IH as [(o' & Ho' & Hp) Href]. split; [|done].
    exists o'. split; [|done]. unfold draft, deref, caller_new, caller_write in *.
    simpl. rewrite lookup_insert_ne; [done|].
    intros Hl. apply (is_fresh (dom (d.(store)))). by rewrite Hl.
Qed.

(** X15: in every state the dialog can be in, under any operations of the
    dialog and any writes of the caller to its own objects, the draft is
    there with both names and the status present, what the mounted form
    keeps has them too, and so both character counters have a value (they
    never read the length of a missing name). *)
Theorem draft_always_has_names_and_status known d :
  reachable known d ->
  (exists o, draft d = Some o /\ names_and_status_present o) /\
  (forall init, d.(formRef) = Some init -> names_and_status_present init) /\
  is_Some (zhCharCount d) /\ is_Some (enCharCount d).
Proof.
  intros Hr. destruct (reachable_well_kept _ _ Hr) as [(o & Ho & Hp) Href].
  split_and!; [by exists o | done | |].
  - destruct Hp as ([s Hs] & _ & _). unfold zhCharCount. rewrite Ho. simpl.
    rewrite Hs. simpl. eauto.
  - destruct Hp as (_ & [s Hs] & _). unfold enCharCount. rewrite Ho. simpl.
    rewrite Hs. simpl. eauto.
Qed.

Lemma draft_always_has_names_and_status_witness :
  is_Some (zhCharCount
             (run (op_input (input_sortOrder None)) (page_with record_5)).1).
Proof.
  assert (reachable
            (dom ({[ 1%positive := record_5 ]} : gmap loc EditFormData)
             ∪ payloads (run (op_input (input_sortOrder None)) (page_with record_5)).2)
            (run (op_input (input_sortOrder None)) (page_with record_5)).1) as Hr.
  { apply (reachable_run _ _ (op_input (input_sortOrder None))); [|exact I].
    apply reachable_setup. }
  exact (proj1 (proj2 (proj2 (draft_always_has_names_and_status _ _ Hr)))).
Defined.

(** X16: whatever the operation and the state, the dialog emits nothing,
    or the closing [update:visible] alone, or [cancel] followed by it, or
    [confirm] followed by it: it never asks to be shown, never sends
    [confirm] and [cancel] together, and only submitting sends [confirm]. *)
Theorem dialog_emits_closing_sequences op d :
  ((run op d).2 = [] \/
   (run op d).2 = [update_visible false] \/
   (run op d).2 = [cancel; update_visible false] \/
   exists l, (run op d).2 = [confirm l; update_visible false]) /\
  (forall l, confirm l ∈ (run op d).2 -> op = op_confirm) /\
  (cancel ∈ (run op d).2 -> op = op_cancel).
Proof.
  destruct op; simpl; try (split_and!; [by left | by intros l ?%elem_of_nil
                                        | by intros ?%elem_of_nil]).
  - unfold handleConfirm. destruct d.(formRef); [|split_and!; [by left | by intros l ?%elem_of_nil | by intros ?%elem_of_nil]].
    destruct (deref d d.(form)) as [o|]; [|split_and!; [by left | by intros l ?%elem_of_nil | by intros ?%elem_of_nil]].
    destruct (validate o); [|split_and!; [by left | by intros l ?%elem_of_nil | by intros ?%elem_of_nil]].
    simpl. split_and!; [right; right; right; eauto | done | set_solver].
  - split_and!; [right; right; by left | set_solver | done].
  - split_and!; [right; by left | set_solver | set_solver].
Qed.

End DialogExtras.
